(** * Streaming tool-call reassembly and dispatch: a model of
      [openai_streaming_tools.py]

    The generator [ask_question] is embedded as a computation in a small
    state-and-exception monad.  The state holds the module-level [history],
    the locals of the running call and a log of what the generator did
    (values yielded to its consumer, turns appended, completions requested).
    Library calls ([json.loads], [json.dumps], [time.time], the provider's
    streams, Python's [+] and string formatting of its result) are
    parameters of the model. *)

From Stdlib Require Import String Ascii List ZArith Bool Lia DecimalString.
Import ListNotations.
Local Open Scope string_scope.
Local Open Scope list_scope.

Set Implicit Arguments.
Set Warnings "-register-all,-notation-for-abbreviation".

(** ** Python values *)

(** The values that travel through the program: what [json.loads] returns
    and what the tool functions yield.  A float is identified by its
    [repr]; a dict keeps its insertion order. *)
Inductive pyval : Type :=
| PNone
| PBool (b : bool)
| PInt (z : Z)
| PFloat (repr : string)
| PStr (s : string)
| PList (items : list pyval)
| PDict (entries : list (string * pyval)).

Definition dict : Type := list (string * pyval).

(** [k in d] *)
Definition dict_has (k : string) (d : dict) : bool :=
  existsb (fun kv => fst kv =? k)%string d.

(** [d.get(k)] *)
Fixpoint dict_get (k : string) (d : dict) : option pyval :=
  match d with
  | [] => None
  | (k', v) :: rest => if (k' =? k)%string then Some v else dict_get k rest
  end.

(** [d[k] = v]: an existing key keeps its place, a new one goes last. *)
Fixpoint dict_set (k : string) (v : pyval) (d : dict) : dict :=
  match d with
  | [] => [(k, v)]
  | (k', v') :: rest =>
      if (k' =? k)%string then (k, v) :: rest else (k', v') :: dict_set k v rest
  end.

(** Python's truth value, as tested by [if x:] and [not x]. *)
Definition truthy (v : pyval) : bool :=
  match v with
  | PNone => false
  | PBool b => b
  | PInt z => negb (z =? 0)%Z
  | PFloat r => negb ((r =? "0.0")%string || (r =? "-0.0")%string)
  | PStr s => negb (s =? "")%string
  | PList l => match l with [] => false | _ => true end
  | PDict d => match d with [] => false | _ => true end
  end.

(** A display value with nothing in it: [None], the empty string, an empty
    container. *)
Definition is_empty (v : pyval) : bool :=
  match v with
  | PNone => true
  | PStr s => (s =? "")%string
  | PList [] => true
  | PDict [] => true
  | _ => false
  end.

(** [x or default] on an optional string attribute. *)
Definition str_or (x : option string) (default : string) : string :=
  match x with
  | Some s => if (s =? "")%string then default else s
  | None => default
  end.

(** ** The provider's stream *)

(** One entry of [delta.tool_calls]; an attribute that is missing or [None]
    is [None] here. *)
Record tool_call : Type := ToolCall {
  tc_id : option string;
  fn_name : option string;
  fn_arguments : option string
}.

(** [choice.delta] *)
Record choice : Type := Choice {
  content : option string;
  tool_calls : list tool_call
}.

Record chunk : Type := Chunk { choices : list choice }.

(** What pulling the next item of a stream gives: a chunk, or Ctrl-C while
    waiting for it. *)
Inductive event : Type :=
| Next (c : chunk)
| Interrupt.

(** ** The transcript *)

Inductive message : Type :=
| User (text : string)
| AssistantToolCall (call_id name arguments : string)
| ToolResult (call_id name content : string)
| AssistantText (text : string).

(** A call of [client.chat.completions.create]: [messages] is the snapshot
    [*history] that follows the system prompt, [tools] the names of the
    tool definitions offered. *)
Record request : Type := Request {
  model : string;
  system_prompt : string;
  messages : list message;
  tools : list string
}.

(** ** State, effects and the monad *)

Inductive effect : Type :=
| Yielded (v : pyval)
| Appended (m : message)
| Opened (r : request).

Inductive exn : Type :=
| KeyboardInterrupt
| TypeError
| KeyError
| ValueError
| RecursionError.

Record state : Type := State {
  history : list message;            (* the module-level list *)
  trace : list effect;               (* what happened, oldest first *)
  ticks : nat;                       (* readings of the clock so far *)
  collected : string;
  partial_args : string;
  tool_name : option string;
  tool_output_chunks : list pyval
}.

Inductive outcome (A : Type) : Type :=
| Ret (a : A)
| Raise (e : exn).
Arguments Ret {A} a.
Arguments Raise {A} e.

Definition M (A : Type) : Type := state -> outcome A * state.

Definition ret {A : Type} (a : A) : M A := fun s => (Ret a, s).

Definition raise {A : Type} (e : exn) : M A := fun s => (Raise e, s).

Definition bind {A B : Type} (m : M A) (k : A -> M B) : M B :=
  fun s =>
    match m s with
    | (Ret a, s') => k a s'
    | (Raise e, s') => (Raise e, s')
    end.

Declare Scope py_scope.
Delimit Scope py_scope with py.
Notation "x <- m ;; k" := (bind m (fun x => k))
  (at level 61, m at next level, right associativity) : py_scope.
Notation "m ;; k" := (bind m (fun _ => k))
  (at level 61, right associativity) : py_scope.
Local Open Scope py_scope.

Definition log (e : effect) (s : state) : state :=
  State (history s) (trace s ++ [e]) (ticks s) (collected s) (partial_args s)
        (tool_name s) (tool_output_chunks s).

(** [yield v] *)
Definition yield_ (v : pyval) : M unit := fun s => (Ret tt, log (Yielded v) s).

(** [history.append(m)] *)
Definition append_history (m : message) : M unit :=
  fun s =>
    (Ret tt,
     State (history s ++ [m]) (trace s ++ [Appended m]) (ticks s) (collected s)
           (partial_args s) (tool_name s) (tool_output_chunks s)).

Definition set_collected (c : string) : M unit :=
  fun s =>
    (Ret tt,
     State (history s) (trace s) (ticks s) c (partial_args s) (tool_name s)
           (tool_output_chunks s)).

Definition set_partial_args (p : string) : M unit :=
  fun s =>
    (Ret tt,
     State (history s) (trace s) (ticks s) (collected s) p (tool_name s)
           (tool_output_chunks s)).

Definition set_tool_name (n : option string) : M unit :=
  fun s =>
    (Ret tt,
     State (history s) (trace s) (ticks s) (collected s) (partial_args s) n
           (tool_output_chunks s)).

Definition set_tool_output_chunks (l : list pyval) : M unit :=
  fun s =>
    (Ret tt,
     State (history s) (trace s) (ticks s) (collected s) (partial_args s)
           (tool_name s) l).

Definition read {A : Type} (f : state -> A) : M A := fun s => (Ret (f s), s).

(** [for x in l: body(x)] over a finished list. *)
Fixpoint for_each {A : Type} (body : A -> M unit) (l : list A) : M unit :=
  match l with
  | [] => ret tt
  | x :: rest => body x ;; for_each body rest
  end.

(** [for chunk in stream: body(chunk)]: an interruption while waiting for
    the next chunk raises [KeyboardInterrupt] in the loop. *)
Fixpoint for_stream (body : chunk -> M unit) (stream : list event) : M unit :=
  match stream with
  | [] => ret tt
  | Interrupt :: _ => raise KeyboardInterrupt
  | Next c :: rest => body c ;; for_stream body rest
  end.

(** [try: body  except KeyboardInterrupt: handler  finally: final] *)
Definition try_except_finally (body handler final : M unit) : M unit :=
  fun s =>
    match body s with
    | (Ret _, s1) => final s1
    | (Raise KeyboardInterrupt, s1) =>
        match handler s1 with
        | (Ret _, s2) => final s2
        | (Raise e, s2) =>
            match final s2 with
            | (Ret _, s3) => (Raise e, s3)
            | r => r
            end
        end
    | (Raise e, s1) =>
        match final s1 with
        | (Ret _, s2) => (Raise e, s2)
        | r => r
        end
    end.

(** ** The yield normaliser (lines 180-199) *)

(** The dict that [yield_part] is after the [if not isinstance ... else ...]
    block. *)
Definition normalize (yield_part : pyval) : dict :=
  match yield_part with
  | PDict d =>
      let d1 := if dict_has "store" d then d else dict_set "store" (PBool false) d in
      if dict_has "display" d1 then d1
      else
        let display_data :=
          filter (fun kv => negb (fst kv =? "store")%string) d1 in
        match display_data with
        | [] => dict_set "display" (PStr "") d1
        | _ => dict_set "display" (PDict display_data) d1
        end
  | _ => [("display", yield_part); ("store", PBool false)]
  end.

(** [yield_part.get("store", False)] *)
Definition store_flag (item : dict) : pyval :=
  match dict_get "store" item with
  | Some v => v
  | None => PBool false
  end.

(** Lines 180-209: one pass of the loop over the tool's output. *)
Definition handle_yield (yield_part : pyval) : M unit :=
  let item := normalize yield_part in
  match dict_get "display" item with
  | None => raise KeyError
  | Some display_value =>
      (if truthy display_value then yield_ display_value else ret tt) ;;
      if truthy (store_flag item)
      then chunks <- read tool_output_chunks ;;
           set_tool_output_chunks (chunks ++ [display_value])
      else ret tt
  end.

(** ** The example tools *)

(** The items [fun_1] yields. *)
Definition fun_1 : list pyval :=
  [ PDict [("display", PStr "fun_1fun_1fun_1fun_1"); ("store", PBool true)];
    PStr "LAST OF: fun_1" ].

Definition fun_2_dict : pyval :=
  PDict [ ("fun_2_string", PStr "Hi this is fun_2");
          ("fun_2_int", PInt 67);
          ("fun_2_float", PFloat "3.14");
          ("fun_2_bool", PBool true);
          ("fun_2_dict", PDict [ ("fun_2_test1", PStr "test1");
                                 ("fun_2_test2", PStr "test2") ]) ].

(** What [fun_2] yields before it evaluates [a+b]. *)
Definition fun_2_prefix : list pyval :=
  fun_1 ++
  [ PStr "fun_2 plain string test ** only be showed in terminal **";
    PDict [ ("display",
             PStr "fun_2 using proper yield format ** should be stored in history and be showed in terminal **");
            ("store", PBool true) ];
    PDict [ ("display",
             PStr "fun_2 using proper yield format ** should not be stored in history and be showed in terminal **");
            ("store", PBool false) ];
    PDict [ ("display",
             PDict [ ("DICT fun_2", PStr "this should be stored in chat history");
                     ("success", PBool true);
                     ("result", fun_2_dict) ]);
            ("code", PInt 200);
            ("store", PBool true) ];
    PNone;
    PDict [] ].

(** The call of [fun_2] on [**args]: the keyword arguments must be exactly [a] and [b];
    anything else is a [TypeError] at the call. *)
Definition bind_kwargs (args : pyval) : option (pyval * pyval) :=
  match args with
  | PDict d =>
      if forallb (fun kv => (fst kv =? "a")%string || (fst kv =? "b")%string) d
      then match dict_get "a" d, dict_get "b" d with
           | Some a, Some b => Some (a, b)
           | _, _ => None
           end
      else None
  | _ => None
  end.

(** ** [ask_question] *)

Definition placeholder_name : string := "worlds".

Definition newline : string := String "010"%char "".

(** The text yielded when the call is interrupted. *)
Definition interrupted_marker : string :=
  (newline ++ "[INTERRUPTED]" ++ newline)%string.

Definition the_system_prompt : string :=
  "You are a helpful assistant. Add a short explanatory line after tool calls.".

(** The names declared by the tool definitions offered on the primary
    request ([tools=[fun_2_function]]). *)
Definition declared_tools : list string := ["fun_2"].

Definition primary_request (h : list message) : request :=
  Request "gpt-5-mini-2025-08-07" the_system_prompt h declared_tools.

Definition followup_request (h : list message) : request :=
  Request "gpt-4o-mini" the_system_prompt h [].

(** Decimal text of an integer, as an f-string renders it. *)
Definition decimal (z : Z) : string := NilEmpty.string_of_int (Z.to_int z).

(** The ways [json.loads] fails other than with [JSONDecodeError]: an
    integer literal beyond the digit limit ([ValueError]) and nesting
    beyond the recursion limit ([RecursionError]). *)
Inductive decode_failure : Type :=
| DigitsLimit
| TooDeep.

Definition failure_exn (f : decode_failure) : exn :=
  match f with
  | DigitsLimit => ValueError
  | TooDeep => RecursionError
  end.

(** What a call of [json.loads] does: it returns a value, raises
    [JSONDecodeError], or raises one of the other errors. *)
Inductive decoded : Type :=
| Parsed (v : pyval)
| DecodeError
| Broke (f : decode_failure).

Section Ask.

(** [json.loads] *)
Variable json_loads : string -> decoded.
(** [json.dumps(v, ensure_ascii=flag)] *)
Variable json_dumps : bool -> pyval -> string.
(** The text of [a+b] inside the f-string of [fun_2]; [None] when the
    addition raises (a [TypeError] for operands that do not add; the model
    does not tell other errors of [+] apart from it). *)
Variable sum_text : pyval -> pyval -> option string.
(** [int(time.time() * 1000)] at the n-th reading. *)
Variable clock : nat -> Z.
(** [client.chat.completions.create]: the stream that answers a request. *)
Variable client : request -> list event.

(** The generator [fun_2(a, b)]: the items it yields and, when [a+b]
    fails, the exception that ends it.  Its [print] writes to the
    terminal, not to the consumer, and is left out. *)
Definition fun_2 (a b : pyval) : list pyval * option exn :=
  match sum_text a b with
  | Some t =>
      (fun_2_prefix ++
       [PDict [("display", PStr ("result = " ++ t)); ("store", PBool true)]],
       None)
  | None => (fun_2_prefix, Some TypeError)
  end.

(** [int(time.time() * 1000)] *)
Definition now_ms : M Z :=
  fun s =>
    (Ret (clock (ticks s)),
     State (history s) (trace s) (S (ticks s)) (collected s) (partial_args s)
           (tool_name s) (tool_output_chunks s)).

(** [client.chat.completions.create(...)].  The provider is taken to
    answer every request with a stream: a request that raises (no network,
    a refused key) is outside the model, and so is an interruption that
    arrives while the request is made. *)
Definition create (r : request) : M (list event) :=
  fun s => (Ret (client r), log (Opened r) s).

(** Lines 179-209: the loop over the items of [fun_2] called on [**args] *)
Definition run_tool (args : pyval) : M unit :=
  match bind_kwargs args with
  | None => raise TypeError
  | Some (a, b) =>
      let '(items, failure) := fun_2 a b in
      for_each handle_yield items ;;
      match failure with
      | Some e => raise e
      | None => ret tt
      end
  end.

(** The turn logged when the arguments parse. *)
Definition call_turn (id name : string) (args : pyval) : message :=
  AssistantToolCall id name (json_dumps true args).

(** The turn logged when the tool is done. *)
Definition result_turn (id name : string) (chunks : list pyval) : message :=
  ToolResult id name (json_dumps false (PList chunks)).

(** The id line 151 computes at clock position [n], and the clock
    position after it. *)
Definition id_at (tc : tool_call) (n : nat) : string * nat :=
  match tc_id tc with
  | Some i => if (i =? "")%string
              then (("call_" ++ decimal (clock n))%string, S n)
              else (i, n)
  | None => (("call_" ++ decimal (clock n))%string, S n)
  end.

(** The state once lines 150-151 have run on a fragment. *)
Definition heard (tc : tool_call) (s : state) : state :=
  State (history s) (trace s) (snd (id_at tc (ticks s))) (collected s)
        (partial_args s) (Some (str_or (fn_name tc) placeholder_name))
        (tool_output_chunks s).

(** Lines 161-219: the body of the inner [try], once the arguments
    parse.  An interruption is modelled where the loops wait for the next
    chunk of a stream ([Interrupt]); one that arrives while these lines
    run is outside the model. *)
Definition dispatch (tool_id name : string) (args : pyval) : M unit :=
  append_history (AssistantToolCall tool_id name (json_dumps true args)) ;;
  run_tool args ;;
  chunks <- read tool_output_chunks ;;
  append_history (ToolResult tool_id name (json_dumps false (PList chunks))) ;;
  set_partial_args "".

(** Line 151: the provider's id, or one made from the clock. *)
Definition call_id (tc : tool_call) : M string :=
  match tc_id tc with
  | Some i => if (i =? "")%string
              then t <- now_ms ;; ret ("call_" ++ decimal t)%string
              else ret i
  | None => t <- now_ms ;; ret ("call_" ++ decimal t)%string
  end.

(** Lines 149-222: one pass of [for tool_call in choice.delta.tool_calls]. *)
Definition on_tool_call (tc : tool_call) : M unit :=
  let name := str_or (fn_name tc) placeholder_name in
  set_tool_name (Some name) ;;
  tool_id <- call_id tc ;;
  match fn_arguments tc with
  | None => ret tt
  | Some args_piece =>
      if (args_piece =? "")%string then ret tt
      else
        buffer <- read partial_args ;;
        set_partial_args (buffer ++ args_piece)%string ;;
        match json_loads (buffer ++ args_piece)%string with
        | Parsed args => dispatch tool_id name args
        | DecodeError => ret tt
        | Broke f => raise (failure_exn f)
        end
  end.

(** Lines 142-145 and 243-245: a text delta is yielded and collected. *)
Definition on_text (delta : option string) : M unit :=
  match delta with
  | Some d =>
      if (d =? "")%string then ret tt
      else yield_ (PStr d) ;;
           c <- read collected ;;
           set_collected (c ++ d)%string
  | None => ret tt
  end.

(** Lines 135-222: the body of the primary loop. *)
Definition on_chunk (c : chunk) : M unit :=
  match choices c with
  | [] => ret tt
  | ch :: _ =>
      on_text (content ch) ;;
      for_each on_tool_call (tool_calls ch)
  end.

(** Lines 241-245: the body of the follow-up loop. *)
Definition on_followup_chunk (c : chunk) : M unit :=
  match choices c with
  | [] => ret tt
  | ch :: _ => on_text (content ch)
  end.

(** Phase 1 *)
Definition phase1 (stream : list event) : M unit :=
  for_stream on_chunk stream.

(** [if tool_output_chunks and tool_name] *)
Definition followup_wanted (s : state) : bool :=
  match tool_output_chunks s with
  | [] => false
  | _ => match tool_name s with
         | Some n => negb (n =? "")%string
         | None => false
         end
  end.

(** Phase 2 *)
Definition phase2 : M unit :=
  wanted <- read followup_wanted ;;
  if wanted : bool
  then h <- read history ;;
       followup <- create (followup_request h) ;;
       for_stream on_followup_chunk followup
  else ret tt.

(** The locals as they are before the [try] (lines 127-131). *)
Definition init_locals : M unit :=
  set_collected "" ;;
  set_partial_args "" ;;
  set_tool_name None ;;
  set_tool_output_chunks [].

(** Lines 110-131: what runs before the [try]. *)
Definition ask_start (ask : string) : M (list event) :=
  append_history (User ask) ;;
  h <- read history ;;
  stream <- create (primary_request h) ;;
  init_locals ;;
  ret stream.

(** Lines 133-245: the body of the [try]. *)
Definition ask_body (stream : list event) : M unit :=
  phase1 stream ;; phase2.

(** Line 250: the [finally] clause. *)
Definition finalize : M unit :=
  c <- read collected ;; append_history (AssistantText c).

Definition ask_question (ask : string) : M unit :=
  stream <- ask_start ask ;;
  try_except_finally
    (ask_body stream)
    (yield_ (PStr interrupted_marker))
    finalize.

End Ask.

(** ** The interactive loop (lines 253-269) *)

(** How a session ends: the user asked to leave, the input ran out
    ([input] raises [EOFError]), or an exception of [ask_question] reached
    the loop, which catches nothing. *)
Inductive session_end : Type :=
| Goodbye
| EndOfInput
| Crashed (e : exn).

Section Session.

Variable json_loads : string -> decoded.
Variable json_dumps : bool -> pyval -> string.
Variable sum_text : pyval -> pyval -> option string.
Variable clock : nat -> Z.
Variable client : request -> list event.
(** [str.strip] *)
Variable strip : string -> string.
(** [str.lower] *)
Variable lower : string -> string.

(** [user_input.lower() in {"exit", "quit"}] *)
Definition is_exit (user_input : string) : bool :=
  (lower user_input =? "exit")%string || (lower user_input =? "quit")%string.

(** The [while True] loop over the lines [input] returns.  The loop prints
    what [ask_question] yields; printing changes nothing the program reads
    and is left out. *)
Fixpoint main (inputs : list string) (s : state) : session_end * state :=
  match inputs with
  | [] => (EndOfInput, s)
  | line :: rest =>
      let user_input := strip line in
      if (user_input =? "")%string then main rest s
      else if is_exit user_input then (Goodbye, s)
      else match ask_question json_loads json_dumps sum_text clock client
                   user_input s with
           | (Ret _, s') => main rest s'
           | (Raise e, s') => (Crashed e, s')
           end
  end.

(** The questions a run of input lines holds: the stripped lines that are
    not empty, up to the first one that asks to leave. *)
Fixpoint questions (inputs : list string) : list string :=
  match inputs with
  | [] => []
  | line :: rest =>
      if (strip line =? "")%string then questions rest
      else if is_exit (strip line) then []
      else strip line :: questions rest
  end.

End Session.

(** ** Derived notions used in the statements *)

(** [yield_part["display"]] after normalisation. *)
Definition display_of (raw : pyval) : pyval :=
  match dict_get "display" (normalize raw) with
  | Some v => v
  | None => PNone
  end.

(** Whether the normalised item asks to be stored. *)
Definition stored (raw : pyval) : bool := truthy (store_flag (normalize raw)).

(** The display values a run of raw items sends to the consumer. *)
Definition shown (items : list pyval) : list pyval :=
  filter truthy (map display_of items).

(** The display values a run of raw items adds to the tool output. *)
Definition kept (items : list pyval) : list pyval :=
  map display_of (filter stored items).

(** The keys of a mapping other than [store], with their values. *)
Definition without_store (d : dict) : dict :=
  filter (fun kv => negb (fst kv =? "store")%string) d.

(** The state after [history.append(m)]. *)
Definition push (m : message) (s : state) : state :=
  State (history s ++ [m]) (trace s ++ [Appended m]) (ticks s) (collected s)
        (partial_args s) (tool_name s) (tool_output_chunks s).

(** The state after the loop over a tool's items. *)
Definition after_items (items : list pyval) (s : state) : state :=
  State (history s) (trace s ++ map Yielded (shown items)) (ticks s) (collected s)
        (partial_args s) (tool_name s) (tool_output_chunks s ++ kept items).

(** The state with the argument buffer replaced. *)
Definition with_buffer (p : string) (s : state) : state :=
  State (history s) (trace s) (ticks s) (collected s) p (tool_name s)
        (tool_output_chunks s).

(** The values yielded to the consumer, read off a log. *)
Definition yields_of (t : list effect) : list pyval :=
  flat_map (fun e => match e with Yielded v => [v] | _ => [] end) t.

(** The turns appended, read off a log. *)
Definition appends_of (t : list effect) : list message :=
  flat_map (fun e => match e with Appended m => [m] | _ => [] end) t.

(** The completions requested, read off a log. *)
Definition opened_of (t : list effect) : list request :=
  flat_map (fun e => match e with Opened r => [r] | _ => [] end) t.

(** The number of assistant tool-call turns in a transcript. *)
Definition count_calls (h : list message) : nat :=
  length (filter (fun m => match m with AssistantToolCall _ _ _ => true | _ => false end) h).

Definition is_tool_turn (m : message) : Prop :=
  match m with
  | AssistantToolCall _ _ _ | ToolResult _ _ _ => True
  | _ => False
  end.

(** A completed dispatch as the transcript records it. *)
Record dispatched : Type := Dispatched {
  d_id : string;
  d_name : string;
  d_arguments : string;
  d_result : string
}.

(** The turns a sequence of completed dispatches leaves: a tool-call turn
    immediately followed by the tool-result turn with the same id and
    name. *)
Definition tool_turns (ds : list dispatched) : list message :=
  flat_map (fun d => [AssistantToolCall (d_id d) (d_name d) (d_arguments d);
                      ToolResult (d_id d) (d_name d) (d_result d)]) ds.

(** The last four turns are a user turn, a tool call, its result and the
    closing text. *)
Definition last_four_ok (h : list message) : Prop :=
  exists pre q id name args id' name' out text,
    h = pre ++ [User q; AssistantToolCall id name args;
                ToolResult id' name' out; AssistantText text] /\
    id' = id.

(** The text delta of a chunk, as lines 139 and 242 read it. *)
Definition chunk_text (c : chunk) : string :=
  match choices c with
  | ch :: _ => match content ch with Some d => d | None => "" end
  | [] => ""
  end.

(** The text deltas a loop over the stream receives before it ends or is
    interrupted. *)
Fixpoint stream_text (stream : list event) : string :=
  match stream with
  | [] => ""
  | Interrupt :: _ => ""
  | Next c :: rest => (chunk_text c ++ stream_text rest)%string
  end.

Fixpoint has_interrupt (stream : list event) : bool :=
  match stream with
  | [] => false
  | Interrupt :: _ => true
  | Next _ :: rest => has_interrupt rest
  end.

(** A chunk reduced to its text delta. *)
Definition text_only (e : event) : event :=
  match e with
  | Next c => Next (Chunk (map (fun ch => Choice (content ch) []) (choices c)))
  | Interrupt => Interrupt
  end.

(** A stream chunk that carries one tool-call fragment and no text. *)
Definition single (tc : tool_call) : event :=
  Next (Chunk [Choice None [tc]]).

(** One step of the run seen from outside: the log grows by [t], the
    transcript by the turns [t] appends, which are tool turns; [reqs] are
    the completions requested; and unless a tool failed, the appended turns
    are completed dispatches and [txt] is what was added to [collected]. *)
Definition advances (reqs : list request) (txt : string) (r : outcome unit)
    (s s' : state) : Prop :=
  exists t,
    trace s' = trace s ++ t /\
    history s' = history s ++ appends_of t /\
    opened_of t = reqs /\
    Forall is_tool_turn (appends_of t) /\
    (r = Ret tt \/ r = Raise KeyboardInterrupt ->
     (exists ds, appends_of t = tool_turns ds) /\
     collected s' = (collected s ++ txt)%string).

(** The state in which the [try] of [ask_question] is entered. *)
Definition started (ask : string) (s : state) : state :=
  State (history s ++ [User ask])
        (trace s ++ [Appended (User ask);
                     Opened (primary_request (history s ++ [User ask]))])
        (ticks s) "" "" None [].

(** The concatenation of a list of texts. *)
Definition joined (l : list string) : string := fold_right String.append "" l.

(** Whether a fragment carries the given call id. *)
Definition same_id (id : string) (tc : tool_call) : bool :=
  match tc_id tc with
  | Some i => (i =? id)%string
  | None => false
  end.

(** The argument text of a fragment, as line 152 reads it. *)
Definition piece_of (tc : tool_call) : string :=
  match fn_arguments tc with
  | Some piece => piece
  | None => ""
  end.

(** The buffer of one call identity as the specification has it, one
    buffer per call: the argument text of the fragments that carry the
    identity, joined in arrival order.  This definition follows the
    specification, not the code, which keeps the single [partial_args]. *)
Definition spec_call_buffer (id : string) (fragments : list tool_call) : string :=
  joined (map piece_of (filter (same_id id) fragments)).

(** The reading of "an unknown tool name fails fast": a dispatch under a
    name that no offered tool declares raises, and the handler has yielded
    nothing. *)
Definition fails_fast_on_unknown_tool
    (dispatch : string -> string -> pyval -> M unit) : Prop :=
  forall id name args s,
    ~ In name declared_tools ->
    exists e s',
      dispatch id name args s = (Raise e, s') /\
      yields_of (trace s') = yields_of (trace s).

(** The non-empty text deltas a loop over a stream yields before the
    stream ends or is interrupted. *)
Fixpoint deltas (stream : list event) : list string :=
  match stream with
  | [] => []
  | Interrupt :: _ => []
  | Next c :: rest =>
      (if (chunk_text c =? "")%string then [] else [chunk_text c]) ++ deltas rest
  end.

(** An event with no tool-call fragment where the primary loop looks. *)
Definition quiet (e : event) : bool :=
  match e with
  | Next c =>
      match choices c with
      | ch :: _ => match tool_calls ch with [] => true | _ => false end
      | [] => true
      end
  | Interrupt => true
  end.

(** How a loop over a stream of quiet events ends. *)
Definition stream_end (stream : list event) : outcome unit :=
  if has_interrupt stream then Raise KeyboardInterrupt else Ret tt.

(** The state after a loop over a stream of quiet events. *)
Definition after_text (stream : list event) (s : state) : state :=
  State (history s) (trace s ++ map (fun d => Yielded (PStr d)) (deltas stream))
        (ticks s) (collected s ++ stream_text stream) (partial_args s)
        (tool_name s) (tool_output_chunks s).

(** The texts of the user turns of a transcript. *)
Definition user_texts (h : list message) : list string :=
  flat_map (fun m => match m with User t => [t] | _ => [] end) h.

(** The number of assistant-text turns of a transcript. *)
Definition closing_count (h : list message) : nat :=
  length (filter (fun m => match m with AssistantText _ => true | _ => false end) h).

(** A usable tool name is recorded. *)
Definition named (s : state) : Prop :=
  exists n, tool_name s = Some n /\ n <> "".

(** What a stretch of the primary loop that ends normally does to the tool
    output: either no dispatch completed and the tool output is the same,
    or some did, the tool output grew and a tool name is recorded. *)
Definition gathers (s s' : state) : Prop :=
  exists extra,
    tool_output_chunks s' = tool_output_chunks s ++ extra /\
    (named s -> named s') /\
    ((count_calls (history s') = count_calls (history s) /\ extra = []) \/
     (count_calls (history s) < count_calls (history s') /\ extra <> [] /\ named s')).

(** ** Arguments that never complete *)

Section Buffering.

Variable json_loads : string -> decoded.

(** The buffer after one more fragment, as long as every parse attempt
    raised [JSONDecodeError]: [None] once an attempt did anything else. *)
Definition feed (buffer : option string) (tc : tool_call) : option string :=
  match buffer with
  | None => None
  | Some b =>
      match fn_arguments tc with
      | Some piece =>
          if (piece =? "")%string then Some b
          else match json_loads (b ++ piece)%string with
               | DecodeError => Some (b ++ piece)%string
               | _ => None
               end
      | None => Some b
      end
  end.

Definition feed_event (buffer : option string) (e : event) : option string :=
  match e with
  | Next c =>
      match choices c with
      | ch :: _ => fold_left feed (tool_calls ch) buffer
      | [] => buffer
      end
  | Interrupt => buffer
  end.

(** The buffer a primary loop is left with when each of its parse
    attempts raised [JSONDecodeError]. *)
Definition still_buffering (stream : list event) : option string :=
  fold_left feed_event stream (Some "").

(** What one fragment does to the buffer, read off the fragment alone:
    the buffer after it, and whether its parse succeeded (lines 152-161
    and 219). *)
Definition complete_one (buffer : string) (tc : tool_call) : string * nat :=
  match fn_arguments tc with
  | Some piece =>
      if (piece =? "")%string then (buffer, 0)
      else match json_loads (buffer ++ piece)%string with
           | Parsed _ => ("", 1)
           | _ => ((buffer ++ piece)%string, 0)
           end
  | None => (buffer, 0)
  end.

(** The buffer after a run of fragments and the number of parses that
    succeeded on the way. *)
Fixpoint complete_calls (buffer : string) (tcs : list tool_call) : string * nat :=
  match tcs with
  | [] => (buffer, 0)
  | tc :: rest =>
      let '(b, n) := complete_one buffer tc in
      let '(b', m) := complete_calls b rest in
      (b', n + m)
  end.

(** The same over the events of a stream. *)
Fixpoint completions (buffer : string) (stream : list event) : string * nat :=
  match stream with
  | [] => (buffer, 0)
  | Interrupt :: _ => (buffer, 0)
  | Next c :: rest =>
      let '(b, n) :=
        match choices c with
        | ch :: _ => complete_calls buffer (tool_calls ch)
        | [] => (buffer, 0)
        end in
      let '(b', m) := completions b rest in
      (b', n + m)
  end.

(** The number of tool calls a primary stream triggers: the number of
    fragments at which the buffered arguments parse. *)
Definition dispatches_triggered (stream : list event) : nat :=
  snd (completions "" stream).

End Buffering.

(** What a stretch of the primary loop without a successful parse does:
    text goes out and is collected, nothing else is logged. *)
Definition only_text (txts : list string) (text : string) (s s' : state) : Prop :=
  history s' = history s /\
  tool_output_chunks s' = tool_output_chunks s /\
  trace s' = trace s ++ map (fun d => Yielded (PStr d)) txts /\
  collected s' = (collected s ++ text)%string.

(** What a stretch of the primary loop that ends normally leaves behind,
    against the count [k] read off the stream: the turns of as many
    completed dispatches as parses succeeded, and the buffer. *)
Definition completes (k : string * nat) (s s' : state) : Prop :=
  exists ds,
    history s' = history s ++ tool_turns ds /\
    length ds = snd k /\
    partial_args s' = fst k.

(** ** Reference instances of the library calls

    A decoder and an encoder for the fragment of JSON without floats and
    without characters that need escaping, with integer literals and
    nesting within the limits of the decoder; integer and string addition,
    a clock and a scripted provider.  On that fragment they agree with
    Python's [json] module and [+]; the examples below stay inside it. *)

Module Ref.

Definition dq : ascii := "034"%char.

Definition quoted (s : string) : string := String dq (s ++ String dq "")%string.

Definition is_ws (c : ascii) : bool :=
  ((c =? " ") || (c =? "009") || (c =? "010") || (c =? "013"))%char.

Fixpoint skip_ws (cs : list ascii) : list ascii :=
  match cs with
  | c :: rest => if is_ws c then skip_ws rest else cs
  | [] => []
  end.

Definition is_digit (c : ascii) : bool :=
  (48 <=? nat_of_ascii c)%nat && (nat_of_ascii c <=? 57)%nat.

Fixpoint span_digits (cs : list ascii) : list ascii * list ascii :=
  match cs with
  | c :: rest =>
      if is_digit c
      then let '(ds, tl) := span_digits rest in (c :: ds, tl)
      else ([], cs)
  | [] => ([], [])
  end.

Definition digits_value (ds : list ascii) : Z :=
  fold_left (fun acc d => acc * 10 + (Z.of_nat (nat_of_ascii d) - 48))%Z ds 0%Z.

(** An integer literal: digits, no leading zero, not the start of a
    float. *)
Definition unsigned_literal (cs : list ascii) : option (Z * list ascii) :=
  match span_digits cs with
  | ([], _) => None
  | (d :: ds, tl) =>
      if (d =? "0")%char && negb (match ds with [] => true | _ => false end)
      then None
      else match tl with
           | c :: _ =>
               if ((c =? ".") || (c =? "e") || (c =? "E"))%char then None
               else Some (digits_value (d :: ds), tl)
           | [] => Some (digits_value (d :: ds), tl)
           end
  end.

Definition int_literal (cs : list ascii) : option (pyval * list ascii) :=
  match cs with
  | "-"%char :: rest =>
      match unsigned_literal rest with
      | Some (z, tl) => Some (PInt (- z), tl)
      | None => None
      end
  | _ =>
      match unsigned_literal cs with
      | Some (z, tl) => Some (PInt z, tl)
      | None => None
      end
  end.

(** The characters of a string literal after its opening quote. *)
Fixpoint string_body (cs : list ascii) : option (string * list ascii) :=
  match cs with
  | [] => None
  | c :: rest =>
      if (c =? dq)%char then Some ("", rest)
      else if (c =? "\")%char || (nat_of_ascii c <? 32)%nat then None
      else match string_body rest with
           | Some (s, tl) => Some (String c s, tl)
           | None => None
           end
  end.

Fixpoint value (fuel : nat) (cs : list ascii) : option (pyval * list ascii) :=
  match fuel with
  | O => None
  | S f =>
      match skip_ws cs with
      | "n"%char :: "u"%char :: "l"%char :: "l"%char :: tl => Some (PNone, tl)
      | "t"%char :: "r"%char :: "u"%char :: "e"%char :: tl => Some (PBool true, tl)
      | "f"%char :: "a"%char :: "l"%char :: "s"%char :: "e"%char :: tl =>
          Some (PBool false, tl)
      | "["%char :: tl =>
          match skip_ws tl with
          | "]"%char :: tl' => Some (PList [], tl')
          | _ => match elements f tl with
                 | Some (l, tl') => Some (PList l, tl')
                 | None => None
                 end
          end
      | "{"%char :: tl =>
          match skip_ws tl with
          | "}"%char :: tl' => Some (PDict [], tl')
          | _ => match members f [] tl with
                 | Some (d, tl') => Some (PDict d, tl')
                 | None => None
                 end
          end
      | c :: tl =>
          if (c =? dq)%char
          then match string_body tl with
               | Some (s, tl') => Some (PStr s, tl')
               | None => None
               end
          else int_literal (c :: tl)
      | [] => None
      end
  end

with elements (fuel : nat) (cs : list ascii) : option (list pyval * list ascii) :=
  match fuel with
  | O => None
  | S f =>
      match value f cs with
      | Some (v, tl) =>
          match skip_ws tl with
          | ","%char :: tl' =>
              match elements f tl' with
              | Some (l, tl'') => Some (v :: l, tl'')
              | None => None
              end
          | "]"%char :: tl' => Some ([v], tl')
          | _ => None
          end
      | None => None
      end
  end

with members (fuel : nat) (acc : dict) (cs : list ascii) : option (dict * list ascii) :=
  match fuel with
  | O => None
  | S f =>
      match skip_ws cs with
      | c :: tl =>
          if (c =? dq)%char
          then match string_body tl with
               | Some (k, tl1) =>
                   match skip_ws tl1 with
                   | ":"%char :: tl2 =>
                       match value f tl2 with
                       | Some (v, tl3) =>
                           match skip_ws tl3 with
                           | ","%char :: tl4 => members f (dict_set k v acc) tl4
                           | "}"%char :: tl4 => Some (dict_set k v acc, tl4)
                           | _ => None
                           end
                       | None => None
                       end
                   | _ => None
                   end
               | None => None
               end
          else None
      | [] => None
      end
  end.

Definition json_loads (s : string) : decoded :=
  match value (2 * String.length s + 2) (list_ascii_of_string s) with
  | Some (v, tl) => match skip_ws tl with [] => Parsed v | _ => DecodeError end
  | None => DecodeError
  end.

Fixpoint join (sep : string) (l : list string) : string :=
  match l with
  | [] => ""
  | [x] => x
  | x :: rest => (x ++ sep ++ join sep rest)%string
  end.

Fixpoint dumps (v : pyval) : string :=
  match v with
  | PNone => "null"
  | PBool true => "true"
  | PBool false => "false"
  | PInt z => decimal z
  | PFloat r => r
  | PStr s => quoted s
  | PList l => ("[" ++ join ", " (map dumps l) ++ "]")%string
  | PDict d =>
      ("{" ++ join ", " (map (fun kv => quoted (fst kv) ++ ": " ++ dumps (snd kv)) d)
           ++ "}")%string
  end.

Definition json_dumps (ensure_ascii : bool) (v : pyval) : string := dumps v.

Definition as_int (v : pyval) : option Z :=
  match v with
  | PInt z => Some z
  | PBool b => Some (if b then 1 else 0)%Z
  | _ => None
  end.

Definition sum_text (a b : pyval) : option string :=
  match a, b with
  | PStr x, PStr y => Some (x ++ y)%string
  | _, _ =>
      match as_int a, as_int b with
      | Some x, Some y => Some (decimal (x + y))
      | _, _ => None
      end
  end.

Definition clock (n : nat) : Z := (1700000000000 + Z.of_nat n)%Z.

(** A provider that answers the request offering tools with [primary] and
    the one offering none with [followup]. *)
Definition script (primary followup : list event) (r : request) : list event :=
  match tools r with
  | [] => followup
  | _ => primary
  end.

Definition ask (primary followup : list event) (question : string) : M unit :=
  ask_question json_loads json_dumps sum_text clock (script primary followup) question.

Definition empty_state : state := State [] [] 0 "" "" None [].

(** A chunk carrying only text. *)
Definition text (t : string) : event := Next (Chunk [Choice (Some t) []]).

(** A chunk carrying one tool-call fragment. *)
Definition fragment (id name : option string) (piece : string) : event :=
  Next (Chunk [Choice None [ToolCall id name (Some piece)]]).

(** The serialised arguments [{"a": x, "b": y}] without the spaces. *)
Definition args_text (x y : Z) : string :=
  ("{" ++ quoted "a" ++ ":" ++ decimal x ++ "," ++ quoted "b" ++ ":" ++ decimal y ++ "}")%string.

(** *** Inputs of the examples *)

(** The two fragments of the arguments [{"a":1,"b":2}]. *)
Definition piece_1 : string := ("{" ++ quoted "a" ++ ":")%string.
Definition piece_2 : string := ("1," ++ quoted "b" ++ ":2}")%string.

(** The state of a call that has only received [piece_1]. *)
Definition buffering : state :=
  State [User "q"] [] 0 "" piece_1 (Some "fun_2") [].

Definition named_first : tool_call :=
  ToolCall (Some "call_A") (Some "fun_2") (Some piece_1).

Definition bare_second : tool_call := ToolCall None None (Some piece_2).

(** A primary stream with two complete tool calls. *)
Definition two_calls : list event :=
  [ fragment (Some "call_A") (Some "fun_2") (args_text 1 2);
    fragment (Some "call_B") (Some "fun_2") (args_text 3 4) ].

(** A primary stream interrupted after some text. *)
Definition cut_short : list event := [text "Hel"; text "lo"; Interrupt; text "!"].

Definition args_1_2 : pyval := PDict [("a", PInt 1); ("b", PInt 2)].

(** The state the call on [two_calls] ends in. *)
Definition two_calls_final : state :=
  Eval vm_compute in
    snd (ask two_calls [text "done"] "q" empty_state).

Definition args_3_4 : pyval := PDict [("a", PInt 3); ("b", PInt 4)].

(** The fragments of two tool calls that arrive interleaved: the first
    half of call_A's arguments, the whole of call_B's, the second half of
    call_A's. *)
Definition interleaved : list tool_call :=
  [ ToolCall (Some "call_A") (Some "fun_2") (Some piece_1);
    ToolCall (Some "call_B") (Some "fun_2") (Some (args_text 3 4));
    ToolCall (Some "call_A") None (Some piece_2) ].

(** A primary stream with some text and one complete tool call. *)
Definition one_call : list event :=
  [ text "hi"; fragment (Some "call_A") (Some "fun_2") (args_text 1 2) ].

(** The state the call on [one_call] ends in. *)
Definition one_call_final : state :=
  Eval vm_compute in
    snd (ask one_call [text "done"] "q" empty_state).

(** The start of an object whose first value is an integer literal of
    4301 digits, one more than Python converts. *)
Definition long_literal : string :=
  (piece_1 ++ string_of_list_ascii (repeat "1"%char 4301))%string.

(** The decoder with Python's answer on [long_literal] added: the literal
    is converted as soon as it is read, before the missing end of the
    object is noticed, and the conversion raises [ValueError]. *)
Definition json_loads_at_limit (text : string) : decoded :=
  if (text =? long_literal)%string then Broke DigitsLimit else json_loads text.

Definition on_tool_call : tool_call -> M unit :=
  on_tool_call json_loads json_dumps sum_text clock.

Definition dispatch : string -> string -> pyval -> M unit :=
  dispatch json_dumps sum_text.

(** *** The string methods of the interactive loop, on ASCII text *)

Definition is_space (c : ascii) : bool :=
  let n := nat_of_ascii c in
  ((9 <=? n) && (n <=? 13) || (28 <=? n) && (n <=? 32))%nat.

Fixpoint lstrip (cs : list ascii) : list ascii :=
  match cs with
  | c :: rest => if is_space c then lstrip rest else cs
  | [] => []
  end.

Definition strip (s : string) : string :=
  string_of_list_ascii (rev (lstrip (rev (lstrip (list_ascii_of_string s))))).

Definition lower_char (c : ascii) : ascii :=
  let n := nat_of_ascii c in
  if ((65 <=? n) && (n <=? 90))%nat then ascii_of_nat (n + 32) else c.

Definition lower (s : string) : string :=
  string_of_list_ascii (map lower_char (list_ascii_of_string s)).

Definition main (primary followup : list event) : list string -> state -> session_end * state :=
  main json_loads json_dumps sum_text clock (script primary followup) strip lower.

(** *** Inputs of the further examples *)


(** The lines of a short session. *)
Definition session_lines : list string := ["  "; " what? "; " QUIT "; "more"].

(** The state that session ends in. *)
Definition session_final : state :=
  Eval vm_compute in snd (main [text "hi"] [] session_lines empty_state).

End Ref.


(** * Properties *)

(** ** Dictionaries *)

Lemma dict_get_set_same (k : string) (v : pyval) (d : dict) :
  dict_get k (dict_set k v d) = Some v.
Proof.
  induction d as [|[k' v'] d IH]; simpl.
  - now rewrite String.eqb_refl.
  - destruct (k' =? k)%string eqn:E; simpl.
    + now rewrite String.eqb_refl.
    + now rewrite E.
Qed.

Lemma dict_get_set_other (k k0 : string) (v : pyval) (d : dict) :
  (k0 =? k)%string = false ->
  dict_get k (dict_set k0 v d) = dict_get k d.
Proof.
  intros Hk.
  induction d as [|[k' v'] d IH]; simpl.
  - now rewrite Hk.
  - destruct (k' =? k0)%string eqn:E; simpl.
    + apply String.eqb_eq in E; subst k'. now rewrite Hk.
    + destruct (k' =? k)%string; [reflexivity | exact IH].
Qed.

Lemma dict_has_get (k : string) (d : dict) :
  dict_has k d = match dict_get k d with Some _ => true | None => false end.
Proof.
  induction d as [|[k' v'] d IH]; simpl; [reflexivity|].
  destruct (k' =? k)%string; simpl; [reflexivity | exact IH].
Qed.

Lemma without_store_set_store (v : pyval) (d : dict) :
  dict_has "store" d = false ->
  without_store (dict_set "store" v d) = without_store d.
Proof.
  induction d as [|[k' v'] d IH]; simpl; intros H; [reflexivity|].
  destruct (k' =? "store")%string eqn:E; simpl in *; [discriminate|].
  rewrite E; simpl. now rewrite IH.
Qed.

(** ** The yield normaliser *)

Lemma normalize_display (d : dict) :
  dict_get "display" (normalize (PDict d)) =
  Some match dict_get "display" d with
       | Some v => v
       | None => match without_store d with
                 | [] => PStr ""
                 | sub => PDict sub
                 end
       end.
Proof.
  unfold normalize; cbv zeta.
  match goal with |- context [dict_has "display" ?x] => set (d1 := x) end.
  assert (Hd : dict_get "display" d1 = dict_get "display" d).
  { unfold d1. destruct (dict_has "store" d); [reflexivity|].
    now apply dict_get_set_other. }
  assert (Hw : without_store d1 = without_store d).
  { unfold d1. destruct (dict_has "store" d) eqn:E; [reflexivity|].
    now apply without_store_set_store. }
  rewrite (dict_has_get "display" d1), Hd.
  destruct (dict_get "display" d) as [v|] eqn:E.
  - now rewrite Hd.
  - fold (without_store d1). rewrite Hw.
    destruct (without_store d); apply dict_get_set_same.
Qed.

Lemma normalize_store (d : dict) :
  dict_get "store" (normalize (PDict d)) =
  Some match dict_get "store" d with
       | Some v => v
       | None => PBool false
       end.
Proof.
  unfold normalize; cbv zeta.
  match goal with |- context [dict_has "display" ?x] => set (d1 := x) end.
  assert (Hs : dict_get "store" d1 =
               Some match dict_get "store" d with Some v => v | None => PBool false end).
  { unfold d1. rewrite (dict_has_get "store" d).
    destruct (dict_get "store" d) as [v|] eqn:E; [exact E|].
    apply dict_get_set_same. }
  destruct (dict_has "display" d1); [exact Hs|].
  fold (without_store d1).
  destruct (without_store d1); now rewrite dict_get_set_other.
Qed.

Lemma display_present (raw : pyval) :
  dict_get "display" (normalize raw) = Some (display_of raw).
Proof.
  unfold display_of.
  destruct raw; try reflexivity.
  now rewrite normalize_display.
Qed.

(** C5: the normalisation rules.  A raw item that is not a mapping becomes
    [{display: item, store: False}]; a mapping keeps its [store] and gets
    [False] when it has none; a mapping keeps its [display] and otherwise
    gets the sub-mapping of its keys other than [store], or the empty
    string when there is no such key; the raw item [{}] gets display
    [""]. *)
Theorem normalize_rules :
  (forall raw, (forall d, raw <> PDict d) ->
     normalize raw = [("display", raw); ("store", PBool false)]) /\
  (forall d,
     dict_get "store" (normalize (PDict d)) =
     Some match dict_get "store" d with
          | Some v => v
          | None => PBool false
          end) /\
  (forall d,
     dict_get "display" (normalize (PDict d)) =
     Some match dict_get "display" d with
          | Some v => v
          | None => match without_store d with
                    | [] => PStr ""
                    | sub => PDict sub
                    end
          end) /\
  dict_get "display" (normalize (PDict [])) = Some (PStr "").
Proof.
  split; [|split; [exact normalize_store | split; [exact normalize_display | reflexivity]]].
  intros raw Hraw.
  destruct raw; try reflexivity.
  now elim (Hraw entries).
Qed.

Lemma normalize_rules_witness :
  (forall d, PStr "LAST OF: fun_1" <> PDict d) /\
  normalize (PStr "LAST OF: fun_1") =
  [("display", PStr "LAST OF: fun_1"); ("store", PBool false)].
Proof.
  split.
  - intros d H; discriminate H.
  - apply (proj1 normalize_rules). intros d H; discriminate H.
Defined.

(** ** Closed forms of the dispatch path *)

Lemma shown_cons (x : pyval) (l : list pyval) : shown (x :: l) = shown [x] ++ shown l.
Proof. unfold shown; simpl. now destruct (truthy (display_of x)). Qed.

Lemma kept_cons (x : pyval) (l : list pyval) : kept (x :: l) = kept [x] ++ kept l.
Proof. unfold kept; simpl. now destruct (stored x). Qed.

Lemma after_items_cons (x : pyval) (l : list pyval) (s : state) :
  after_items (x :: l) s = after_items l (after_items [x] s).
Proof.
  unfold after_items; simpl.
  rewrite (shown_cons x l), (kept_cons x l), map_app, !app_assoc.
  reflexivity.
Qed.

Lemma after_items_nil (s : state) : after_items [] s = s.
Proof.
  destruct s; unfold after_items, shown, kept; simpl.
  now rewrite !app_nil_r.
Qed.

Lemma handle_yield_eq (raw : pyval) (s : state) :
  handle_yield raw s = (Ret tt, after_items [raw] s).
Proof.
  unfold handle_yield. rewrite display_present.
  destruct s as [h t k c p n o].
  unfold after_items, shown, kept, stored, bind, yield_, ret, read,
    set_tool_output_chunks, log; simpl.
  destruct (truthy (display_of raw)), (truthy (store_flag (normalize raw)));
    simpl; rewrite ?app_nil_r; reflexivity.
Qed.

Lemma for_each_handle_yield (items : list pyval) (s : state) :
  for_each handle_yield items s = (Ret tt, after_items items s).
Proof.
  revert s. induction items as [|x l IH]; intros s; simpl.
  - now rewrite after_items_nil.
  - unfold bind. rewrite handle_yield_eq, IH, <- after_items_cons. reflexivity.
Qed.

Lemma string_app_nil_r (x : string) : (x ++ "")%string = x.
Proof. induction x as [|c x IH]; simpl; [reflexivity | now rewrite IH]. Qed.

Lemma count_calls_app (h l : list message) :
  count_calls (h ++ l) = count_calls h + count_calls l.
Proof. unfold count_calls. now rewrite filter_app, length_app. Qed.

Lemma yields_of_app (t u : list effect) : yields_of (t ++ u) = yields_of t ++ yields_of u.
Proof. unfold yields_of. apply flat_map_app. Qed.

Lemma appends_of_app (t u : list effect) : appends_of (t ++ u) = appends_of t ++ appends_of u.
Proof. unfold appends_of. apply flat_map_app. Qed.

Lemma opened_of_app (t u : list effect) : opened_of (t ++ u) = opened_of t ++ opened_of u.
Proof. unfold opened_of. apply flat_map_app. Qed.

Lemma yields_of_yielded (l : list pyval) : yields_of (map Yielded l) = l.
Proof. induction l as [|x l IH]; simpl; [reflexivity | now rewrite IH]. Qed.

Lemma opened_of_yielded (l : list pyval) : opened_of (map Yielded l) = [].
Proof. induction l as [|x l IH]; simpl; [reflexivity | exact IH]. Qed.

Lemma appends_of_yielded (l : list pyval) : appends_of (map Yielded l) = [].
Proof. induction l as [|x l IH]; simpl; [reflexivity | exact IH]. Qed.

(** Closes [Forall is_tool_turn] goals over explicit lists of tool turns. *)
Ltac tool_turns_ok := repeat (constructor; simpl; auto).

Lemma string_app_assoc (x y z : string) :
  ((x ++ y) ++ z)%string = (x ++ (y ++ z))%string.
Proof. induction x as [|c x IH]; simpl; [reflexivity | now rewrite IH]. Qed.

Lemma tool_turns_app (ds es : list dispatched) :
  tool_turns (ds ++ es) = tool_turns ds ++ tool_turns es.
Proof. unfold tool_turns. apply flat_map_app. Qed.

Lemma advances_refl (s : state) : advances [] "" (Ret tt) s s.
Proof.
  exists []. simpl. rewrite !app_nil_r. repeat split; auto.
  - now exists [].
  - now rewrite string_app_nil_r.
Qed.

Lemma advances_trans (q1 q2 : list request) (x y : string) (r : outcome unit)
    (s s1 s2 : state) :
  advances q1 x (Ret tt) s s1 -> advances q2 y r s1 s2 ->
  advances (q1 ++ q2) (x ++ y) r s s2.
Proof.
  intros (t1 & Ht1 & Hh1 & Ho1 & Hf1 & Hok1) (t2 & Ht2 & Hh2 & Ho2 & Hf2 & Hok2).
  destruct (Hok1 (or_introl eq_refl)) as [[ds1 Hd1] Hc1].
  exists (t1 ++ t2).
  rewrite appends_of_app, opened_of_app, Ht2, Ht1, Hh2, Hh1, Ho1, Ho2, !app_assoc.
  repeat split; auto.
  - apply Forall_app; auto.
  - destruct (Hok2 H) as [[ds2 Hd2] _].
    exists (ds1 ++ ds2). now rewrite tool_turns_app, Hd1, Hd2.
  - destruct (Hok2 H) as [_ Hc2]. now rewrite Hc2, Hc1, string_app_assoc.
Qed.

Lemma advances_error (q : list request) (x y : string) (r : outcome unit)
    (s s' : state) :
  advances q x r s s' -> r <> Ret tt -> r <> Raise KeyboardInterrupt ->
  advances q y r s s'.
Proof.
  intros (t & Ht & Hh & Ho & Hf & _) H1 H2.
  exists t. repeat split; auto; destruct H; contradiction.
Qed.

Lemma stream_text_text_only (stream : list event) :
  stream_text (map text_only stream) = stream_text stream.
Proof.
  induction stream as [|[c|] rest IH]; simpl; [reflexivity | | reflexivity].
  rewrite IH. f_equal. unfold chunk_text; simpl.
  now destruct (choices c).
Qed.

Lemma has_interrupt_text_only (stream : list event) :
  has_interrupt (map text_only stream) = has_interrupt stream.
Proof. induction stream as [|[c|] rest IH]; simpl; auto. Qed.

Lemma count_calls_tool_turns (ds : list dispatched) :
  count_calls (tool_turns ds) = length ds.
Proof.
  induction ds as [|d ds IH]; [reflexivity|].
  change (tool_turns (d :: ds)) with
    ([AssistantToolCall (d_id d) (d_name d) (d_arguments d);
      ToolResult (d_id d) (d_name d) (d_result d)] ++ tool_turns ds).
  rewrite count_calls_app, IH. reflexivity.
Qed.

Lemma failure_is_no_interrupt (f : decode_failure) :
  failure_exn f <> KeyboardInterrupt.
Proof. destruct f; discriminate. Qed.

Lemma advances_failure (q : list request) (x : string) (f : decode_failure)
    (s s' : state) :
  advances q x (Ret tt) s s' -> advances q x (Raise (failure_exn f)) s s'.
Proof.
  intros (t & Ht & Hh & Ho & Hf & _).
  exists t. repeat split; auto; destruct f, H; discriminate.
Qed.

Section Properties.

Variable json_loads : string -> decoded.
Variable json_dumps : bool -> pyval -> string.
Variable sum_text : pyval -> pyval -> option string.
Variable clock : nat -> Z.
Variable client : request -> list event.

Local Notation fun_2' := (fun_2 sum_text).
Local Notation call_turn' := (call_turn json_dumps).
Local Notation result_turn' := (result_turn json_dumps).
Local Notation id_at' := (id_at clock).
Local Notation heard' := (heard clock).
Local Notation run_tool' := (run_tool sum_text).
Local Notation dispatch' := (dispatch json_dumps sum_text).
Local Notation call_id' := (call_id clock).
Local Notation on_tool_call' := (on_tool_call json_loads json_dumps sum_text clock).
Local Notation on_chunk' := (on_chunk json_loads json_dumps sum_text clock).
Local Notation phase1' := (phase1 json_loads json_dumps sum_text clock).
Local Notation phase2' := (phase2 client).
Local Notation ask_start' := (ask_start client).
Local Notation ask_body' := (ask_body json_loads json_dumps sum_text clock client).
Local Notation ask_question' :=
  (ask_question json_loads json_dumps sum_text clock client).

Lemma fun_2_failure (a b : pyval) (e : exn) :
  snd (fun_2' a b) = Some e -> e = TypeError.
Proof.
  unfold fun_2. destruct (sum_text a b); simpl; congruence.
Qed.

Lemma run_tool_eq (args : pyval) (s : state) :
  run_tool' args s =
  match bind_kwargs args with
  | None => (Raise TypeError, s)
  | Some (a, b) =>
      (match snd (fun_2' a b) with Some e => Raise e | None => Ret tt end,
       after_items (fst (fun_2' a b)) s)
  end.
Proof.
  unfold run_tool.
  destruct (bind_kwargs args) as [[a b]|]; [|reflexivity].
  destruct (fun_2' a b) as [items failure]; simpl.
  unfold bind. rewrite for_each_handle_yield.
  destruct failure; reflexivity.
Qed.

Lemma dispatch_eq (id name : string) (args : pyval) (s : state) :
  dispatch' id name args s =
  let s1 := push (call_turn' id name args) s in
  match bind_kwargs args with
  | None => (Raise TypeError, s1)
  | Some (a, b) =>
      let s2 := after_items (fst (fun_2' a b)) s1 in
      match snd (fun_2' a b) with
      | Some e => (Raise e, s2)
      | None =>
          (Ret tt,
           with_buffer "" (push (result_turn' id name (tool_output_chunks s2)) s2))
      end
  end.
Proof.
  unfold dispatch, bind at 1. unfold append_history at 1.
  fold (push (call_turn' id name args) s).
  unfold bind at 1. rewrite run_tool_eq.
  destruct (bind_kwargs args) as [[a b]|]; [|reflexivity].
  cbv zeta.
  destruct (snd (fun_2' a b)); reflexivity.
Qed.

Lemma call_id_eq (tc : tool_call) (s : state) :
  call_id' tc s =
  (Ret (fst (id_at' tc (ticks s))),
   State (history s) (trace s) (snd (id_at' tc (ticks s))) (collected s)
         (partial_args s) (tool_name s) (tool_output_chunks s)).
Proof.
  unfold call_id, id_at.
  destruct (tc_id tc) as [i|]; [destruct (i =? "")%string|];
    destruct s; reflexivity.
Qed.

Lemma on_tool_call_eq (tc : tool_call) (s : state) :
  on_tool_call' tc s =
  let name := str_or (fn_name tc) placeholder_name in
  let id := fst (id_at' tc (ticks s)) in
  match fn_arguments tc with
  | None => (Ret tt, heard' tc s)
  | Some piece =>
      if (piece =? "")%string then (Ret tt, heard' tc s)
      else
        let buffer := (partial_args s ++ piece)%string in
        match json_loads buffer with
        | Parsed args => dispatch' id name args (with_buffer buffer (heard' tc s))
        | DecodeError => (Ret tt, with_buffer buffer (heard' tc s))
        | Broke f => (Raise (failure_exn f), with_buffer buffer (heard' tc s))
        end
  end.
Proof.
  destruct s as [h t k c p n o], tc as [i nm a].
  cbv [on_tool_call call_id now_ms id_at heard' with_buffer set_tool_name
       set_partial_args read ret bind tc_id fn_name fn_arguments history
       trace ticks collected partial_args tool_name tool_output_chunks
       fst snd].
  destruct i as [i|]; [destruct (i =? "")%string|];
    (destruct a as [piece|]; [|reflexivity]);
    (destruct (piece =? "")%string; [reflexivity|]);
    destruct (json_loads (p ++ piece)); reflexivity.
Qed.


(** *** The tool's output *)

Lemma fun_2_displays_plain (a b x : pyval) :
  In x (fst (fun_2' a b)) ->
  truthy (display_of x) = negb (is_empty (display_of x)).
Proof.
  unfold fun_2. destruct (sum_text a b) as [t|]; simpl;
    intros H; repeat (destruct H as [<-|H]; [reflexivity|]); contradiction.
Qed.

Lemma filter_ext_in_displays (a b : pyval) :
  shown (fst (fun_2' a b)) =
  filter (fun v => negb (is_empty v)) (map display_of (fst (fun_2' a b))).
Proof.
  unfold shown. apply filter_ext_in.
  intros v Hv. apply in_map_iff in Hv as [x [<- Hx]].
  now apply fun_2_displays_plain with (a := a) (b := b).
Qed.

(** For the items one tool invocation produces, the display value of
    each normalised item is yielded to the consumer exactly when it is
    non-empty, and goes to the tool output exactly when [store] is true,
    whether or not it was yielded; order is kept in both, and the tool
    result turn holds the JSON array of the tool output of the whole
    question: what was there before the invocation, then the values the
    invocation stored.  The first part
    holds for any sequence of raw items with emptiness read as Python's
    truth value; the items of [fun_2] have no display on which the two
    readings differ. *)
Theorem tool_output_gating :
  (forall items s,
     exists s', for_each handle_yield items s = (Ret tt, s') /\
       yields_of (trace s') =
         yields_of (trace s) ++ filter truthy (map display_of items) /\
       tool_output_chunks s' =
         tool_output_chunks s ++ map display_of (filter stored items)) /\
  (forall id name args a b s,
     bind_kwargs args = Some (a, b) ->
     let items := fst (fun_2' a b) in
     (forall x, In x items ->
        truthy (display_of x) = negb (is_empty (display_of x))) /\
     (exists r s', run_tool' args s = (r, s') /\
        yields_of (trace s') =
          yields_of (trace s) ++
          filter (fun v => negb (is_empty v)) (map display_of items) /\
        tool_output_chunks s' =
          tool_output_chunks s ++ map display_of (filter stored items)) /\
     (snd (fun_2' a b) = None ->
      exists s', dispatch' id name args s = (Ret tt, s') /\
        history s' =
          history s ++
          [AssistantToolCall id name (json_dumps true args);
           ToolResult id name
             (json_dumps false
                (PList (tool_output_chunks s ++
                        map display_of (filter stored items))))])).
Proof.
  split.
  - intros items s. exists (after_items items s). split.
    + apply for_each_handle_yield.
    + simpl. now rewrite yields_of_app, yields_of_yielded.
  - intros id name args a b s Hb items. split; [|split].
    + intros x Hx. now apply fun_2_displays_plain with (a := a) (b := b).
    + rewrite run_tool_eq, Hb. eexists _, _. split; [reflexivity|].
      simpl. rewrite yields_of_app, yields_of_yielded.
      now rewrite filter_ext_in_displays.
    + intros Hok. rewrite dispatch_eq, Hb. cbv zeta. rewrite Hok.
      eexists. split; [reflexivity|].
      simpl. now rewrite <- app_assoc.
Qed.

(** *** Reassembly of one fragment (C1) *)

(** C1 as the code has it: the call keeps one argument buffer, shared by
    every tool call of the stream.  A fragment, whatever call id it
    carries, is appended to that buffer and the whole buffer is parsed.
    When the parse raises [JSONDecodeError] the call keeps buffering:
    nothing is raised, nothing is logged or yielded, the buffer holds the
    joined text.  When the decoder raises another error, that error leaves
    the call.  When the parse succeeds the dispatch runs once, with the
    parsed arguments: one tool-call turn is appended; and once the
    dispatch has returned, the tool-result turn follows it and the buffer
    is the empty string.  Between fragments the buffer never holds a
    complete value, so skipping the parse on an empty fragment changes
    nothing. *)
Theorem fragment_appended_then_parsed (tc : tool_call) (piece : string) (s : state) :
  fn_arguments tc = Some piece ->
  json_loads "" = DecodeError ->
  json_loads (partial_args s) = DecodeError ->
  let buffer := (partial_args s ++ piece)%string in
  let id := fst (id_at' tc (ticks s)) in
  let name := str_or (fn_name tc) placeholder_name in
  exists r s', on_tool_call' tc s = (r, s') /\
    (r = Ret tt -> json_loads (partial_args s') = DecodeError) /\
    match json_loads buffer with
    | DecodeError =>
        r = Ret tt /\ partial_args s' = buffer /\
        history s' = history s /\ trace s' = trace s /\
        tool_output_chunks s' = tool_output_chunks s
    | Broke f =>
        r = Raise (failure_exn f) /\ partial_args s' = buffer /\
        history s' = history s /\ trace s' = trace s /\
        tool_output_chunks s' = tool_output_chunks s
    | Parsed args =>
        (r, s') = dispatch' id name args (with_buffer buffer (heard' tc s)) /\
        count_calls (history s') = S (count_calls (history s)) /\
        (exists rest,
           history s' =
             history s ++ AssistantToolCall id name (json_dumps true args) :: rest) /\
        (r = Ret tt ->
         partial_args s' = "" /\
         exists out,
           history s' =
             history s ++ [AssistantToolCall id name (json_dumps true args);
                           ToolResult id name out])
    end.
Proof.
  intros Hp Hempty Hinv buffer id name. subst buffer id name.
  rewrite on_tool_call_eq, Hp. cbv zeta.
  destruct (piece =? "")%string eqn:Epiece.
  - apply String.eqb_eq in Epiece. subst piece.
    rewrite string_app_nil_r, Hinv.
    eexists _, _. split; [reflexivity|]. simpl. repeat split; auto.
  - destruct (json_loads (partial_args s ++ piece)) as [args| |f] eqn:Eparse.
    + rewrite dispatch_eq. cbv zeta.
      destruct (bind_kwargs args) as [[a b]|].
      * destruct (snd (fun_2' a b)) as [e|];
          (eexists _, _; split; [reflexivity|]); simpl.
        -- split; [discriminate|]. split; [reflexivity|].
           split; [now rewrite count_calls_app, Nat.add_comm|].
           split; [now exists []|discriminate].
        -- split; [auto|]. split; [reflexivity|].
           split; [now rewrite !count_calls_app, Nat.add_0_r, Nat.add_comm|].
           split; [eexists; now rewrite <- app_assoc|].
           intros _. split; [reflexivity|].
           eexists. now rewrite <- app_assoc.
      * eexists _, _. split; [reflexivity|]. simpl.
        split; [discriminate|]. split; [reflexivity|].
        split; [now rewrite count_calls_app, Nat.add_comm|].
        split; [now exists []|discriminate].
    + eexists _, _. split; [reflexivity|]. simpl. repeat split; auto.
    + eexists _, _. split; [reflexivity|]. simpl.
      split; [discriminate | repeat split; auto].
Qed.


(** *** Names and ids (C8, C9, C10) *)



(** C9 as the code has it: the dispatch runs the one handler [fun_2] on
    the parsed arguments whatever the tool name is.  The outcome, the
    values yielded and the values stored are those of [fun_2] and do not
    depend on the name, which only labels the two transcript turns; no
    name is looked up and no name makes the dispatch fail. *)
Theorem any_name_runs_fun_2 (id name : string) (args a b : pyval) (s : state) :
  bind_kwargs args = Some (a, b) ->
  exists r s', dispatch' id name args s = (r, s') /\
    r = match snd (fun_2' a b) with Some e => Raise e | None => Ret tt end /\
    yields_of (trace s') = yields_of (trace s) ++ shown (fst (fun_2' a b)) /\
    tool_output_chunks s' = tool_output_chunks s ++ kept (fst (fun_2' a b)) /\
    (exists rest,
       history s' = history s ++ AssistantToolCall id name (json_dumps true args) :: rest) /\
    (forall m, In m (history s') -> In m (history s) \/
       m = AssistantToolCall id name (json_dumps true args) \/
       exists out, m = ToolResult id name out).
Proof.
  intros Hb. rewrite dispatch_eq, Hb. cbv zeta.
  destruct (snd (fun_2' a b)) as [e|];
    (eexists _, _; split; [reflexivity|]); simpl;
    rewrite ?yields_of_app, ?yields_of_yielded; simpl; rewrite ?app_nil_r.
  - repeat split; try reflexivity.
    + now exists [].
    + intros m Hm. apply in_app_iff in Hm as [Hm|[<-|[]]]; auto.
  - repeat split; try reflexivity.
    + eexists. now rewrite <- app_assoc.
    + intros m Hm. apply in_app_iff in Hm as [Hm|[<-|[]]].
      * apply in_app_iff in Hm as [Hm|[<-|[]]]; auto.
      * right; right. now eexists.
Qed.

Lemma on_chunk_single (tc : tool_call) (s : state) :
  on_chunk' (Chunk [Choice None [tc]]) s = on_tool_call' tc s.
Proof.
  unfold on_chunk; simpl. unfold bind, on_text, ret.
  destruct (on_tool_call' tc s) as [[[]|e] s']; reflexivity.
Qed.

(** C10: the name and the id are taken anew from every fragment.  When
    the arguments arrive in two fragments and complete on the second,
    the tool-call turn, the tool-result turn and the recorded tool name
    carry the name and id computed from the second fragment, whatever the
    first one supplied: the placeholder when the second has no name, an
    id made from the clock when it has no id. *)
Theorem last_fragment_decides_name_and_id
    (first second : tool_call) (p1 p2 : string) (args : pyval) (s : state) :
  fn_arguments first = Some p1 -> p1 <> "" ->
  fn_arguments second = Some p2 -> p2 <> "" ->
  json_loads (partial_args s ++ p1) = DecodeError ->
  json_loads ((partial_args s ++ p1) ++ p2) = Parsed args ->
  let n1 := snd (id_at' first (ticks s)) in
  let id := fst (id_at' second n1) in
  let name := str_or (fn_name second) placeholder_name in
  exists r s', phase1' [single first; single second] s = (r, s') /\
    (exists rest,
       history s' = history s ++ AssistantToolCall id name (json_dumps true args) :: rest /\
       (r = Ret tt -> exists out, rest = [ToolResult id name out])) /\
    tool_name s' = Some name /\
    (fn_name second = None -> name = placeholder_name) /\
    (tc_id second = None -> id = ("call_" ++ decimal (clock n1))%string).
Proof.
  intros Hp1 Hne1 Hp2 Hne2 Hparse1 Hparse2 n1 id name. subst n1 id name.
  apply String.eqb_neq in Hne1, Hne2.
  unfold phase1, single. simpl for_stream.
  unfold bind at 1. rewrite on_chunk_single, on_tool_call_eq, Hp1. cbv zeta.
  rewrite Hne1, Hparse1.
  unfold bind at 1. rewrite on_chunk_single, on_tool_call_eq, Hp2. cbv zeta.
  rewrite Hne2. simpl partial_args. rewrite Hparse2. simpl ticks.
  rewrite dispatch_eq. cbv zeta.
  assert (Hnm : fn_name second = None ->
                str_or (fn_name second) placeholder_name = placeholder_name)
    by (intros ->; reflexivity).
  assert (Hid : tc_id second = None ->
                fst (id_at' second (snd (id_at' first (ticks s)))) =
                ("call_" ++ decimal (clock (snd (id_at' first (ticks s)))))%string)
    by (unfold id_at at 1; intros ->; reflexivity).
  destruct (bind_kwargs args) as [[a b]|].
  - destruct (snd (fun_2' a b)) as [e|]; unfold ret;
      (eexists _, _; split; [reflexivity|]); simpl.
    + repeat split; auto. exists []. split; [reflexivity | discriminate].
    + repeat split; auto. eexists. split; [now rewrite <- app_assoc|].
      intros _. now eexists.
  - eexists _, _. split; [reflexivity|]. simpl.
    repeat split; auto. exists []. split; [reflexivity | discriminate].
Qed.


(** *** The primary loop *)

Lemma on_tool_call_advances (tc : tool_call) (s : state) :
  advances [] "" (fst (on_tool_call' tc s)) s (snd (on_tool_call' tc s)) /\
  fst (on_tool_call' tc s) <> Raise KeyboardInterrupt.
Proof.
  rewrite on_tool_call_eq. cbv zeta.
  assert (Hq : forall p, advances [] "" (Ret tt) s (with_buffer p (heard' tc s))).
  { intros p. exists []. simpl. rewrite !app_nil_r, string_app_nil_r.
    repeat split; auto. now exists []. }
  destruct (fn_arguments tc) as [piece|];
    [|split; [apply (Hq (partial_args s)) | discriminate]].
  destruct (piece =? "")%string;
    [split; [apply (Hq (partial_args s)) | discriminate]|].
  destruct (json_loads (partial_args s ++ piece)) as [args| |f];
    [|split; [apply Hq | discriminate]
     |split; [apply advances_failure, Hq | intros H; injection H;
                                           apply failure_is_no_interrupt]].
  rewrite dispatch_eq. cbv zeta.
  destruct (bind_kwargs args) as [[a b]|].
  - destruct (snd (fun_2' a b)) as [e|] eqn:Ef.
    + apply fun_2_failure in Ef. subst e. split; [|discriminate].
      eexists (Appended _ :: map Yielded _). simpl.
      rewrite appends_of_yielded, opened_of_yielded, <- app_assoc.
      repeat split; auto; try (destruct H; discriminate); tool_turns_ok.
    + split; [|discriminate].
      eexists (Appended _ :: map Yielded _ ++ [Appended _]). simpl.
      rewrite appends_of_app, opened_of_app, appends_of_yielded, opened_of_yielded.
      simpl. rewrite <- !app_assoc. simpl.
      repeat split; auto.
      * tool_turns_ok.
      * eexists [Dispatched _ _ _ _]. reflexivity.
      * now rewrite string_app_nil_r.
  - split; [|discriminate].
    exists [Appended (call_turn' (fst (id_at' tc (ticks s)))
                        (str_or (fn_name tc) placeholder_name) args)].
    simpl. repeat split; auto; try (destruct H; discriminate); tool_turns_ok.
Qed.

Lemma tool_calls_advance (tcs : list tool_call) (s : state) :
  advances [] "" (fst (for_each on_tool_call' tcs s)) s
           (snd (for_each on_tool_call' tcs s)) /\
  fst (for_each on_tool_call' tcs s) <> Raise KeyboardInterrupt.
Proof.
  revert s. induction tcs as [|tc tcs IH]; intros s; simpl.
  - split; [apply advances_refl | discriminate].
  - unfold bind. destruct (on_tool_call_advances tc s) as [Ha Hn].
    destruct (on_tool_call' tc s) as [[[]|e] s1]; simpl in *.
    + destruct (IH s1) as [Hb Hm]. split; [|exact Hm].
      apply (advances_trans Ha Hb).
    + split; [exact Ha | exact Hn].
Qed.

Lemma on_text_advances (delta : option string) (s : state) :
  exists s', on_text delta s = (Ret tt, s') /\
    advances [] (match delta with Some d => d | None => "" end) (Ret tt) s s'.
Proof.
  unfold on_text. destruct delta as [d|].
  - destruct (d =? "")%string eqn:E.
    + apply String.eqb_eq in E. subst d. eexists. split; [reflexivity|].
      apply advances_refl.
    + eexists. split; [reflexivity|].
      exists [Yielded (PStr d)]. simpl. rewrite app_nil_r.
      repeat split; auto. now exists [].
  - eexists. split; [reflexivity|]. apply advances_refl.
Qed.

Lemma on_chunk_advances (c : chunk) (s : state) :
  advances [] (chunk_text c) (fst (on_chunk' c s)) s (snd (on_chunk' c s)) /\
  fst (on_chunk' c s) <> Raise KeyboardInterrupt.
Proof.
  unfold on_chunk, chunk_text. destruct (choices c) as [|ch _].
  - split; [apply advances_refl | discriminate].
  - unfold bind. destruct (on_text_advances (content ch) s) as (s1 & -> & Ha).
    destruct (tool_calls_advance (tool_calls ch) s1) as [Hb Hn].
    split; [|exact Hn].
    rewrite <- (string_app_nil_r (match content ch with Some d => d | None => "" end)).
    apply (advances_trans Ha Hb).
Qed.

Lemma phase1_advances (stream : list event) (s : state) :
  let r := fst (phase1' stream s) in
  advances [] (stream_text stream) r s (snd (phase1' stream s)) /\
  (r = Ret tt -> has_interrupt stream = false) /\
  (r = Raise KeyboardInterrupt -> has_interrupt stream = true).
Proof.
  unfold phase1. revert s.
  induction stream as [|[c|] rest IH]; intros s; simpl.
  - split; [apply advances_refl | split; [reflexivity | discriminate]].
  - unfold bind. destruct (on_chunk_advances c s) as [Ha Hn].
    destruct (on_chunk' c s) as [[[]|e] s1]; simpl in *.
    + destruct (IH s1) as (Hb & H1 & H2).
      split; [apply (advances_trans Ha Hb) | split; assumption].
    + split; [|split; [discriminate | intros H; now elim Hn]].
      apply advances_error with (x := chunk_text c); [exact Ha | discriminate | exact Hn].
  - split; [|split; [discriminate | reflexivity]].
    exists []. simpl. rewrite !app_nil_r, string_app_nil_r.
    repeat split; auto. now exists [].
Qed.


(** *** The follow-up *)

Lemma followup_as_primary (stream : list event) (s : state) :
  for_stream on_followup_chunk stream s = phase1' (map text_only stream) s.
Proof.
  unfold phase1. revert s.
  induction stream as [|[c|] rest IH]; intros s; simpl; [reflexivity | | reflexivity].
  unfold bind.
  assert (E : on_chunk' (Chunk (map (fun ch => Choice (content ch) []) (choices c))) s =
              on_followup_chunk c s).
  { unfold on_chunk, on_followup_chunk; simpl.
    destruct (choices c) as [|ch chs]; simpl; [reflexivity|].
    unfold bind. destruct (on_text (content ch) s) as [[[]|e] s1]; reflexivity. }
  rewrite E. destruct (on_followup_chunk c s) as [[[]|e] s1]; [apply IH | reflexivity].
Qed.

Lemma phase2_eq (s : state) :
  phase2' s =
  if followup_wanted s
  then phase1' (map text_only (client (followup_request (history s))))
               (log (Opened (followup_request (history s))) s)
  else (Ret tt, s).
Proof.
  unfold phase2, bind, read, create.
  destruct (followup_wanted s); [apply followup_as_primary | reflexivity].
Qed.


(** *** The whole call *)

Lemma ask_body_advances (stream : list event) (s : state) :
  let r := fst (ask_body' stream s) in
  exists reqs,
    advances reqs
      (stream_text stream ++ joined (map (fun q => stream_text (client q)) reqs))
      r s (snd (ask_body' stream s)) /\
    (r = Ret tt ->
       has_interrupt stream || existsb has_interrupt (map client reqs) = false) /\
    (r = Raise KeyboardInterrupt ->
       has_interrupt stream || existsb has_interrupt (map client reqs) = true).
Proof.
  unfold ask_body, bind.
  destruct (phase1_advances stream s) as (Ha & H1 & H2).
  destruct (phase1' stream s) as [[[]|e] s1]; simpl in *.
  - rewrite phase2_eq. destruct (followup_wanted s1).
    + set (q := followup_request (history s1)).
      destruct (phase1_advances (map text_only (client q)) (log (Opened q) s1))
        as (Hb & H3 & H4).
      rewrite stream_text_text_only, has_interrupt_text_only in *.
      exists [q]. simpl. rewrite (H1 eq_refl), string_app_nil_r, orb_false_r. simpl.
      split; [|split; assumption].
      apply advances_trans with (s1 := s1) (q1 := []) (q2 := [q]); [exact Ha|].
      rewrite <- (app_nil_r [q]).
      change (stream_text (client q)) with ("" ++ stream_text (client q))%string.
      apply advances_trans with (s1 := log (Opened q) s1); [|exact Hb].
      exists [Opened q]. simpl. rewrite app_nil_r, string_app_nil_r.
      repeat split; auto. now exists [].
    + exists []. simpl. rewrite string_app_nil_r, orb_false_r.
      split; [exact Ha | split; [auto | discriminate]].
  - exists []. simpl. rewrite string_app_nil_r, orb_false_r.
    split; [exact Ha | split; [discriminate | exact H2]].
Qed.

Lemma ask_question_eq (ask : string) (s : state) :
  ask_question' ask s =
  match ask_body' (client (primary_request (history s ++ [User ask]))) (started ask s) with
  | (Ret _, sb) => (Ret tt, push (AssistantText (collected sb)) sb)
  | (Raise KeyboardInterrupt, sb) =>
      (Ret tt,
       push (AssistantText (collected sb)) (log (Yielded (PStr interrupted_marker)) sb))
  | (Raise e, sb) => (Raise e, push (AssistantText (collected sb)) sb)
  end.
Proof.
  unfold ask_question, bind at 1.
  assert (E : ask_start' ask s =
              (Ret (client (primary_request (history s ++ [User ask]))), started ask s)).
  { unfold ask_start, started, init_locals, bind, append_history, read, create, log,
      set_collected, set_partial_args, set_tool_name, set_tool_output_chunks, ret.
    simpl. now rewrite <- app_assoc. }
  rewrite E. unfold try_except_finally.
  destruct (ask_body' _ (started ask s)) as [[[]|e] sb]; [reflexivity|].
  destruct e; reflexivity.
Qed.


(** C3: whatever the outcome of a call (normal completion, an
    interruption while waiting on the primary or on the follow-up stream,
    or a tool failure), the transcript grows by the user turn, tool turns
    and exactly one closing assistant-text turn, appended last, which
    holds the collected text.  An interruption is not propagated; when
    the call returns, the collected text is the text deltas received on
    the streams it opened, up to the interruption if there was one, and
    on interruption the marker is the last value yielded, just before the
    closing turn is appended. *)
Theorem closing_turn_always_appended (ask : string) (s : state) :
  exists r s' t mid,
    ask_question' ask s = (r, s') /\
    r <> Raise KeyboardInterrupt /\
    trace s' = trace s ++ t ++ [Appended (AssistantText (collected s'))] /\
    history s' = history s ++ User ask :: mid ++ [AssistantText (collected s')] /\
    Forall is_tool_turn mid /\
    (r = Ret tt ->
       collected s' = joined (map (fun q => stream_text (client q)) (opened_of t)) /\
       (existsb has_interrupt (map client (opened_of t)) = true ->
        exists t', t = t' ++ [Yielded (PStr interrupted_marker)])).
Proof.
  rewrite ask_question_eq.
  set (q := primary_request (history s ++ [User ask])).
  destruct (ask_body_advances (client q) (started ask s))
    as (reqs & (tb & Ht & Hh & Ho & Hf & Hok) & H1 & H2).
  destruct (ask_body' (client q) (started ask s)) as [[[]|e] sb]; simpl in *.
  - exists (Ret tt), (push (AssistantText (collected sb)) sb),
      ([Appended (User ask); Opened q] ++ tb), (appends_of tb).
    split; [reflexivity|]. split; [discriminate|]. simpl.
    rewrite Ht, Hh, <- ?app_assoc. simpl.
    repeat split; auto.
    + destruct (Hok (or_introl eq_refl)) as [_ Hc]. now rewrite Hc, Ho.
    + rewrite Ho. intros Hi. rewrite (H1 eq_refl) in Hi. discriminate.
  - destruct e.
    + exists (Ret tt),
        (push (AssistantText (collected sb)) (log (Yielded (PStr interrupted_marker)) sb)),
        ([Appended (User ask); Opened q] ++ tb ++ [Yielded (PStr interrupted_marker)]),
        (appends_of tb).
      split; [reflexivity|]. split; [discriminate|]. simpl.
      rewrite Ht, Hh, <- ?app_assoc. simpl. rewrite <- ?app_assoc.
      repeat split; auto.
      * destruct (Hok (or_intror eq_refl)) as [_ Hc].
        rewrite Hc, opened_of_app, Ho. simpl. now rewrite app_nil_r.
      * intros _. now exists (Appended (User ask) :: Opened q :: tb).
    + exists (Raise TypeError), (push (AssistantText (collected sb)) sb),
        ([Appended (User ask); Opened q] ++ tb), (appends_of tb).
      split; [reflexivity|]. split; [discriminate|]. simpl.
      rewrite Ht, Hh, <- ?app_assoc. simpl.
      repeat split; auto; discriminate.
    + exists (Raise KeyError), (push (AssistantText (collected sb)) sb),
        ([Appended (User ask); Opened q] ++ tb), (appends_of tb).
      split; [reflexivity|]. split; [discriminate|]. simpl.
      rewrite Ht, Hh, <- ?app_assoc. simpl.
      repeat split; auto; discriminate.
    + exists (Raise ValueError), (push (AssistantText (collected sb)) sb),
        ([Appended (User ask); Opened q] ++ tb), (appends_of tb).
      split; [reflexivity|]. split; [discriminate|]. simpl.
      rewrite Ht, Hh, <- ?app_assoc. simpl.
      repeat split; auto; discriminate.
    + exists (Raise RecursionError), (push (AssistantText (collected sb)) sb),
        ([Appended (User ask); Opened q] ++ tb), (appends_of tb).
      split; [reflexivity|]. split; [discriminate|]. simpl.
      rewrite Ht, Hh, <- ?app_assoc. simpl.
      repeat split; auto; discriminate.
Qed.


End Properties.

(** ** The properties on concrete runs *)

Lemma tool_output_gating_witness :
  bind_kwargs Ref.args_1_2 = Some (PInt 1, PInt 2) /\
  exists s',
    Ref.dispatch "call_A" "fun_2" Ref.args_1_2 Ref.empty_state = (Ret tt, s') /\
    history s' =
      [ AssistantToolCall "call_A" "fun_2" (Ref.json_dumps true Ref.args_1_2);
        ToolResult "call_A" "fun_2"
          (Ref.json_dumps false
             (PList (map display_of
                       (filter stored (fst (fun_2 Ref.sum_text (PInt 1) (PInt 2))))))) ].
Proof.
  split; [reflexivity|].
  apply (proj2 (proj2
           (proj2 (tool_output_gating Ref.json_dumps Ref.sum_text)
              "call_A" "fun_2" Ref.args_1_2 (PInt 1) (PInt 2) Ref.empty_state eq_refl))).
  reflexivity.
Defined.

(** Joining two fragments: after the first the call is buffering; the
    second completes the arguments, one dispatch runs with [{a: 1, b: 2}]
    and the buffer is empty afterwards. *)
Lemma fragment_join_witness :
  Ref.json_loads Ref.piece_1 = DecodeError /\
  Ref.json_loads (Ref.piece_1 ++ Ref.piece_2) = Parsed Ref.args_1_2 /\
  exists s',
    Ref.on_tool_call Ref.bare_second Ref.buffering = (Ret tt, s') /\
    partial_args s' = "" /\
    count_calls (history s') = 1.
Proof.
  split; [reflexivity|]. split; [reflexivity|].
  pose proof (fragment_appended_then_parsed Ref.json_loads Ref.json_dumps Ref.sum_text
                Ref.clock Ref.bare_second (piece := Ref.piece_2) Ref.buffering
                eq_refl eq_refl eq_refl) as H.
  cbv zeta in H. destruct H as (r & s' & E & _ & H).
  change (Ref.json_loads (partial_args Ref.buffering ++ Ref.piece_2))
    with (Parsed Ref.args_1_2) in H.
  destruct H as (_ & Hcount & _ & Hret).
  assert (Er : r = Ret tt).
  { unfold Ref.on_tool_call in *. vm_compute in E. now injection E as <- _. }
  exists s'. subst r. split; [exact E|]. split; [apply (Hret eq_refl) | exact Hcount].
Defined.

(** C1, counterexample, in two parts.  First, the fragments of call_A
    and call_B arrive interleaved.  With one buffer per call identity, as
    the specification has it, the buffer of call_B parses at its only
    fragment and the buffer of call_A parses at its second one: two
    dispatches.  The code glues the three texts in its single buffer,
    which never parses: it dispatches nothing and ends with the glued
    text still buffered.  Second, a parse can fail with an error that is
    not [JSONDecodeError]: on a fragment that holds an integer literal
    beyond the digit limit the call does not keep buffering, the question
    ends with [ValueError] (after the closing text) and the rest of the
    stream is not read. *)
Lemma shared_buffer_and_uncaught_error :
  (Ref.json_loads (spec_call_buffer "call_B" Ref.interleaved) = Parsed Ref.args_3_4 /\
   Ref.json_loads (spec_call_buffer "call_A" Ref.interleaved) = Parsed Ref.args_1_2 /\
   fst (phase1 Ref.json_loads Ref.json_dumps Ref.sum_text Ref.clock
          (map single Ref.interleaved) Ref.empty_state) = Ret tt /\
   history (snd (phase1 Ref.json_loads Ref.json_dumps Ref.sum_text Ref.clock
                   (map single Ref.interleaved) Ref.empty_state)) = [] /\
   partial_args (snd (phase1 Ref.json_loads Ref.json_dumps Ref.sum_text Ref.clock
                        (map single Ref.interleaved) Ref.empty_state)) =
     (Ref.piece_1 ++ Ref.args_text 3 4 ++ Ref.piece_2)%string) /\
  (fst (ask_question Ref.json_loads_at_limit Ref.json_dumps Ref.sum_text Ref.clock
          (Ref.script [Ref.fragment (Some "call_A") (Some "fun_2") Ref.long_literal;
                       Ref.text "unread"] [])
          "q" Ref.empty_state) = Raise ValueError /\
   history (snd (ask_question Ref.json_loads_at_limit Ref.json_dumps Ref.sum_text
                   Ref.clock
                   (Ref.script [Ref.fragment (Some "call_A") (Some "fun_2")
                                  Ref.long_literal;
                                Ref.text "unread"] [])
                   "q" Ref.empty_state)) = [User "q"; AssistantText ""]).
Proof. vm_compute. repeat split; reflexivity. Qed.


(** A name that no tool declares is dispatched to [fun_2] all the same. *)
Lemma any_name_runs_fun_2_witness :
  ~ In "no_such_tool" declared_tools /\
  exists s',
    Ref.dispatch "call_A" "no_such_tool" Ref.args_1_2 Ref.empty_state = (Ret tt, s') /\
    yields_of (trace s') = shown (fst (fun_2 Ref.sum_text (PInt 1) (PInt 2))).
Proof.
  split; [intros [H|[]]; discriminate H|].
  pose proof (@any_name_runs_fun_2 Ref.json_dumps Ref.sum_text "call_A" "no_such_tool"
                Ref.args_1_2 (PInt 1) (PInt 2) Ref.empty_state eq_refl)
    as (r & s' & E & Hr & Hy & _).
  exists s'. split; [|exact Hy].
  unfold Ref.dispatch. rewrite E. now rewrite Hr.
Defined.

(** C9, counterexample: under the undeclared name [no_such_tool] the
    dispatch returns normally after running [fun_2], whose last display is
    yielded; it does not fail fast. *)
Lemma unknown_tool_is_dispatched :
  ~ In "no_such_tool" declared_tools /\
  fst (Ref.dispatch "call_A" "no_such_tool" Ref.args_1_2 Ref.empty_state) = Ret tt /\
  In (PStr "result = 3")
     (yields_of (trace (snd (Ref.dispatch "call_A" "no_such_tool" Ref.args_1_2
                               Ref.empty_state)))) /\
  ~ fails_fast_on_unknown_tool Ref.dispatch.
Proof.
  assert (Hn : ~ In "no_such_tool" declared_tools) by (intros [H|[]]; discriminate H).
  split; [exact Hn|]. split; [reflexivity|]. split.
  - vm_compute. tauto.
  - intros H.
    destruct (H "call_A" "no_such_tool" Ref.args_1_2 Ref.empty_state Hn) as (e & s' & E & _).
    vm_compute in E. discriminate E.
Qed.

Lemma last_fragment_witness :
  fn_name Ref.named_first = Some "fun_2" /\ tc_id Ref.named_first = Some "call_A" /\
  exists r s' rest,
    phase1 Ref.json_loads Ref.json_dumps Ref.sum_text Ref.clock
      [single Ref.named_first; single Ref.bare_second] Ref.empty_state = (r, s') /\
    tool_name s' = Some "worlds" /\
    history s' =
      AssistantToolCall "call_1700000000000" "worlds" (Ref.json_dumps true Ref.args_1_2)
      :: rest.
Proof.
  split; [reflexivity|]. split; [reflexivity|].
  assert (Hne1 : Ref.piece_1 <> "") by discriminate.
  assert (Hne2 : Ref.piece_2 <> "") by discriminate.
  pose proof (@last_fragment_decides_name_and_id Ref.json_loads Ref.json_dumps
                Ref.sum_text Ref.clock Ref.named_first Ref.bare_second
                Ref.piece_1 Ref.piece_2 Ref.args_1_2 Ref.empty_state
                eq_refl Hne1 eq_refl Hne2 eq_refl eq_refl) as H.
  cbv zeta in H. destruct H as (r & s' & E & (rest & Hh & _) & Hname & _ & _).
  exists r, s', rest. split; [exact E|]. split; [exact Hname | exact Hh].
Defined.


(** An interrupted call: the text received before the interruption is
    closed into the transcript, after the marker has been yielded. *)
Lemma interrupted_call_example :
  Ref.ask Ref.cut_short [] "q" Ref.empty_state =
  (Ret tt,
   State [User "q"; AssistantText "Hello"]
         [ Appended (User "q"); Opened (primary_request [User "q"]);
           Yielded (PStr "Hel"); Yielded (PStr "lo");
           Yielded (PStr interrupted_marker); Appended (AssistantText "Hello") ]
         0 "Hello" "" None []).
Proof. vm_compute. reflexivity. Qed.

(** On the interrupted call the marker is the last value yielded before
    the closing turn. *)
Lemma closing_turn_witness :
  exists t',
    trace (snd (ask_question Ref.json_loads Ref.json_dumps Ref.sum_text Ref.clock
                  (Ref.script Ref.cut_short []) "q" Ref.empty_state)) =
    t' ++ [Yielded (PStr interrupted_marker); Appended (AssistantText "Hello")].
Proof.
  destruct (closing_turn_always_appended Ref.json_loads Ref.json_dumps Ref.sum_text
              Ref.clock (Ref.script Ref.cut_short []) "q" Ref.empty_state)
    as (r & s' & t & mid & E & _ & Ht & _ & _ & Hok).
  rewrite E. pose proof E as E'. vm_compute in E'. injection E' as <- <-.
  destruct (Hok eq_refl) as [_ Hm]. clear Hok.
  cbn [snd trace Ref.empty_state app collected] in Ht |- *.
  apply (@app_inj_tail effect
           [ Appended (User "q"); Opened (primary_request [User "q"]);
             Yielded (PStr "Hel"); Yielded (PStr "lo");
             Yielded (PStr interrupted_marker) ]
           t (Appended (AssistantText "Hello")) (Appended (AssistantText "Hello")))
    in Ht.
  destruct Ht as [<- _].
  destruct (Hm eq_refl) as [t' Ht'].
  exists t'.
  change (t' ++ [Yielded (PStr interrupted_marker); Appended (AssistantText "Hello")])
    with (t' ++ [Yielded (PStr interrupted_marker)] ++ [Appended (AssistantText "Hello")]).
  rewrite app_assoc, <- Ht'. reflexivity.
Defined.

Lemma two_calls_run :
  ask_question Ref.json_loads Ref.json_dumps Ref.sum_text Ref.clock
    (Ref.script Ref.two_calls [Ref.text "done"]) "q" Ref.empty_state =
  (Ret tt, Ref.two_calls_final).
Proof. vm_compute. reflexivity. Qed.


(** C2, counterexample: a call whose primary stream completes two tool
    calls returns normally, and its last four turns are ToolResult,
    AssistantToolCall, ToolResult, AssistantText. *)
Lemma two_dispatches_break_last_four :
  fst (Ref.ask Ref.two_calls [Ref.text "done"] "q" Ref.empty_state) = Ret tt /\
  count_calls (history (snd (Ref.ask Ref.two_calls [Ref.text "done"] "q"
                                Ref.empty_state))) = 2 /\
  ~ last_four_ok (history (snd (Ref.ask Ref.two_calls [Ref.text "done"] "q"
                                  Ref.empty_state))).
Proof.
  split; [vm_compute; reflexivity|]. split; [vm_compute; reflexivity|].
  intros (pre & q & i & n & a & i' & n' & o & t & H & _).
  vm_compute in H.
  do 7 (destruct pre as [|? pre]; [discriminate H|]; simpl in H).
  discriminate H.
Qed.

(** C7 on the code: when one call dispatches twice, the second tool
    result holds the stored values of the first invocation followed by
    those of the second. *)
Lemma second_result_carries_first_output :
  exists pre text,
    history (snd (Ref.ask Ref.two_calls [Ref.text "done"] "q" Ref.empty_state)) =
      pre ++
      [ ToolResult "call_B" "fun_2"
          (Ref.json_dumps false
             (PList (kept (fst (fun_2 Ref.sum_text (PInt 1) (PInt 2))) ++
                     kept (fst (fun_2 Ref.sum_text (PInt 3) (PInt 4))))));
        AssistantText text ] /\
    kept (fst (fun_2 Ref.sum_text (PInt 1) (PInt 2))) <> [].
Proof.
  vm_compute. eexists [_; _; _; _], _. split; [reflexivity | discriminate].
Qed.

(** C6 on the code, at the second tool call of one question.  The second
    invocation stores four display values, the ones the claim's rule
    selects.  Its tool result is not the JSON array of these four: it is
    the array of the eight values the question has stored so far, the
    four of the first invocation first.  The cause is the one of C7: the
    tool output is created once per question (line 131) and no dispatch
    clears it, so line 211 serialises what every invocation stored. *)
Lemma second_tool_result_is_not_its_own_array :
  let banner := PStr "fun_1fun_1fun_1fun_1" in
  let proper :=
    PStr "fun_2 using proper yield format ** should be stored in history and be showed in terminal **" in
  let nested :=
    PDict [("DICT fun_2", PStr "this should be stored in chat history");
           ("success", PBool true); ("result", fun_2_dict)] in
  let own := [banner; proper; nested; PStr "result = 7"] in
  let earlier := [banner; proper; nested; PStr "result = 3"] in
  map display_of (filter stored (fst (fun_2 Ref.sum_text (PInt 3) (PInt 4)))) = own /\
  exists pre payload text,
    history (snd (Ref.ask Ref.two_calls [Ref.text "done"] "q" Ref.empty_state)) =
      pre ++ [ToolResult "call_B" "fun_2" payload; AssistantText text] /\
    payload = Ref.json_dumps false (PList (earlier ++ own)) /\
    payload <> Ref.json_dumps false (PList own).
Proof.
  cbv zeta. split; [vm_compute; reflexivity|].
  eexists [_; _; _; _], _, _.
  split; [vm_compute; reflexivity|].
  split; [vm_compute; reflexivity|].
  intros H. apply (f_equal String.length) in H. vm_compute in H. discriminate H.
Qed.

(** * Further properties of the code *)

(** ** The normaliser on mappings *)

Lemma normalize_complete (d : dict) :
  dict_has "store" d = true -> dict_has "display" d = true ->
  normalize (PDict d) = d.
Proof.
  intros Hs Hd. unfold normalize; cbv zeta. now rewrite Hs, Hd.
Qed.

Lemma normalize_has_both (raw : pyval) :
  dict_has "store" (normalize raw) = true /\
  dict_has "display" (normalize raw) = true.
Proof.
  rewrite !dict_has_get, display_present.
  split; [|reflexivity].
  destruct raw; try reflexivity.
  now rewrite normalize_store.
Qed.

(** X1: normalising is idempotent: an item that went through lines
    180-199 once is a mapping with both keys, and a second pass leaves it
    as it is. *)
Theorem normalize_idempotent (raw : pyval) :
  normalize (PDict (normalize raw)) = normalize raw.
Proof.
  destruct (normalize_has_both raw) as [Hs Hd].
  now apply normalize_complete.
Qed.

(** X2: normalising a mapping only adds keys.  Every entry of the raw
    mapping is still there with its value (so a key such as [code] stays in
    the item), and no key other than [store] and [display] appears. *)
Theorem normalize_keeps_entries (d : dict) (k : string) :
  (forall v, dict_get k d = Some v -> dict_get k (normalize (PDict d)) = Some v) /\
  (k <> "store" -> k <> "display" ->
   dict_get k (normalize (PDict d)) = dict_get k d).
Proof.
  assert (Hstep : forall k0 v0 d0,
             dict_has k0 d0 = false ->
             (forall v, dict_get k d0 = Some v ->
                        dict_get k (dict_set k0 v0 d0) = Some v) /\
             (k <> k0 -> dict_get k (dict_set k0 v0 d0) = dict_get k d0)).
  { intros k0 v0 d0 Hno. split.
    - intros v Hv. destruct (k0 =? k)%string eqn:E.
      + apply String.eqb_eq in E. subst k0.
        rewrite dict_has_get, Hv in Hno. discriminate.
      + now rewrite dict_get_set_other.
    - intros Hne. apply dict_get_set_other. apply String.eqb_neq. congruence. }
  unfold normalize; cbv zeta.
  destruct (dict_has "store" d) eqn:Es.
  - destruct (dict_has "display" d) eqn:Ed; [split; auto|].
    destruct (filter _ d);
      match goal with
      | |- context [dict_set "display" ?V ?D] =>
          destruct (Hstep "display" V D Ed) as [H1 H2]
      end; split; auto.
  - destruct (Hstep "store" (PBool false) d Es) as [H1 H2].
    set (d1 := dict_set "store" (PBool false) d) in *.
    destruct (dict_has "display" d1) eqn:Ed; [split; auto|].
    destruct (filter _ d1);
      match goal with
      | |- context [dict_set "display" ?V ?D] =>
          destruct (Hstep "display" V D Ed) as [H3 H4]
      end; (split; [auto | intros Hs Hd; rewrite H4; auto]).
Qed.

Lemma normalize_keeps_entries_witness :
  dict_get "code"
    (normalize (PDict [("code", PInt 200); ("foo", PStr "bar")])) = Some (PInt 200).
Proof.
  apply (proj1 (normalize_keeps_entries
                  [("code", PInt 200); ("foo", PStr "bar")] "code")).
  reflexivity.
Defined.

(** ** Streams that carry only text *)

Lemma after_text_nothing (stream : list event) (s : state) :
  deltas stream = [] -> stream_text stream = "" -> after_text stream s = s.
Proof.
  intros Hd Ht. unfold after_text. rewrite Hd, Ht. destruct s; simpl.
  now rewrite app_nil_r, string_app_nil_r.
Qed.

Lemma after_text_cons (c : chunk) (rest : list event) (s : state) :
  after_text (Next c :: rest) s = after_text rest (after_text [Next c] s).
Proof.
  unfold after_text; simpl.
  rewrite !app_nil_r, string_app_nil_r, map_app, app_assoc, string_app_assoc.
  reflexivity.
Qed.

Lemma deltas_text_only (stream : list event) :
  deltas (map text_only stream) = deltas stream.
Proof.
  induction stream as [|[c|] rest IH]; simpl; [reflexivity | | reflexivity].
  rewrite IH. unfold chunk_text; simpl. now destruct (choices c).
Qed.

Lemma quiet_text_only (stream : list event) :
  forallb quiet (map text_only stream) = true.
Proof.
  induction stream as [|[c|] rest IH]; simpl; auto.
  rewrite IH. now destruct (choices c).
Qed.

Lemma after_text_text_only (stream : list event) (s : state) :
  after_text (map text_only stream) s = after_text stream s.
Proof.
  unfold after_text. now rewrite deltas_text_only, stream_text_text_only.
Qed.

Lemma opened_of_cons (e : effect) (t : list effect) :
  opened_of (e :: t) = match e with Opened r => [r] | _ => [] end ++ opened_of t.
Proof. reflexivity. Qed.

Lemma texts_as_yields (l : list string) :
  map (fun d => Yielded (PStr d)) l = map Yielded (map PStr l).
Proof. now rewrite map_map. Qed.

Lemma user_texts_app (h l : list message) : user_texts (h ++ l) = user_texts h ++ user_texts l.
Proof. unfold user_texts. apply flat_map_app. Qed.

Lemma closing_count_app (h l : list message) :
  closing_count (h ++ l) = closing_count h + closing_count l.
Proof. unfold closing_count. now rewrite filter_app, length_app. Qed.

Lemma tool_turns_quiet (mid : list message) :
  Forall is_tool_turn mid -> user_texts mid = [] /\ closing_count mid = 0.
Proof.
  induction 1 as [|m mid Hm _ [IH1 IH2]]; [split; reflexivity|].
  destruct m; try contradiction; split; simpl; auto.
Qed.

Lemma gathers_refl (s : state) : gathers s s.
Proof. exists []. rewrite app_nil_r. repeat split; auto. Qed.

Lemma gathers_trans (s s1 s2 : state) : gathers s s1 -> gathers s1 s2 -> gathers s s2.
Proof.
  intros (x & Hx & Hn1 & H1) (y & Hy & Hn2 & H2).
  exists (x ++ y). rewrite Hy, Hx, app_assoc.
  split; [reflexivity|]. split; [auto|].
  destruct H1 as [[E1 ->]|(L1 & Nx & N1)], H2 as [[E2 ->]|(L2 & Ny & N2)].
  - left. split; [congruence | reflexivity].
  - right. simpl. repeat split; auto. lia.
  - right. rewrite app_nil_r. repeat split; auto. lia.
  - right. repeat split; auto; [lia|].
    intros H. apply app_eq_nil in H as [? _]. contradiction.
Qed.

Lemma wanted_when_gathered (s : state) :
  named s -> tool_output_chunks s <> [] -> followup_wanted s = true.
Proof.
  intros (n & Hn & Hne) Hc. unfold followup_wanted. rewrite Hn.
  destruct (tool_output_chunks s); [contradiction|].
  apply String.eqb_neq in Hne. now rewrite Hne.
Qed.

Lemma placeholder_or_name (x : option string) : str_or x placeholder_name <> "".
Proof.
  unfold str_or. destruct x as [n|]; [|discriminate].
  destruct (n =? "")%string eqn:E; [discriminate|].
  now apply String.eqb_neq.
Qed.

(** Reads the requests off a log given by conses and appends. *)
Ltac read_opened :=
  repeat (rewrite opened_of_cons || rewrite opened_of_app);
  rewrite ?texts_as_yields, ?opened_of_yielded; simpl.

Lemma yields_of_cons (e : effect) (t : list effect) :
  yields_of (e :: t) = match e with Yielded v => [v] | _ => [] end ++ yields_of t.
Proof. reflexivity. Qed.

(** Reads the yielded values off a log given by conses and appends. *)
Ltac read_yields :=
  repeat (rewrite yields_of_cons || rewrite yields_of_app);
  rewrite ?texts_as_yields, ?yields_of_yielded; simpl.

Section MoreProperties.

Variable json_loads : string -> decoded.
Variable json_dumps : bool -> pyval -> string.
Variable sum_text : pyval -> pyval -> option string.
Variable clock : nat -> Z.
Variable client : request -> list event.

Local Notation fun_2' := (fun_2 sum_text).
Local Notation dispatch' := (dispatch json_dumps sum_text).
Local Notation on_tool_call' := (on_tool_call json_loads json_dumps sum_text clock).
Local Notation on_chunk' := (on_chunk json_loads json_dumps sum_text clock).
Local Notation phase1' := (phase1 json_loads json_dumps sum_text clock).
Local Notation phase2' := (phase2 client).
Local Notation ask_body' := (ask_body json_loads json_dumps sum_text clock client).
Local Notation ask_question' :=
  (ask_question json_loads json_dumps sum_text clock client).

Lemma on_chunk_quiet (c : chunk) (s : state) :
  quiet (Next c) = true ->
  on_chunk' c s = (Ret tt, after_text [Next c] s).
Proof.
  unfold quiet, on_chunk. intros Hq.
  destruct (choices c) as [|ch chs] eqn:Ec.
  - rewrite after_text_nothing; [reflexivity | |];
      simpl; unfold chunk_text; now rewrite Ec.
  - destruct (tool_calls ch); [|discriminate]. simpl.
    unfold after_text, bind, on_text, ret; simpl.
    unfold chunk_text. rewrite Ec.
    destruct (content ch) as [d|].
    + destruct (d =? "")%string eqn:E.
      * apply String.eqb_eq in E. subst d. destruct s; simpl.
        now rewrite app_nil_r, string_app_nil_r.
      * unfold yield_, read, set_collected, log, bind; simpl.
        now rewrite string_app_nil_r.
    + destruct s; simpl. now rewrite app_nil_r, string_app_nil_r.
Qed.

Lemma quiet_stream_run (stream : list event) (s : state) :
  forallb quiet stream = true ->
  phase1' stream s = (stream_end stream, after_text stream s).
Proof.
  unfold phase1, stream_end. revert s.
  induction stream as [|[c|] rest IH]; intros s Hq; simpl.
  - now rewrite after_text_nothing.
  - simpl in Hq. apply andb_prop in Hq as [Hc Hr].
    unfold bind. rewrite on_chunk_quiet by exact Hc.
    rewrite IH by exact Hr. now rewrite <- after_text_cons.
  - now rewrite after_text_nothing.
Qed.


(** The body of the [try] in closed form: the primary loop, then, when it
    ends normally and a follow-up is wanted, the follow-up request and the
    text of its stream. *)
Lemma ask_body_eq (stream : list event) (s : state) :
  ask_body' stream s =
  match phase1' stream s with
  | (Ret _, s1) =>
      if followup_wanted s1
      then (stream_end (client (followup_request (history s1))),
            after_text (client (followup_request (history s1)))
                       (log (Opened (followup_request (history s1))) s1))
      else (Ret tt, s1)
  | (Raise e, s1) => (Raise e, s1)
  end.
Proof.
  unfold ask_body, bind.
  destruct (phase1' stream s) as [[[]|e] s1]; [|reflexivity].
  rewrite (phase2_eq json_loads json_dumps sum_text clock).
  destruct (followup_wanted s1); [|reflexivity].
  rewrite quiet_stream_run by apply quiet_text_only.
  unfold stream_end. now rewrite has_interrupt_text_only, after_text_text_only.
Qed.

(** ** The follow-up *)

(** C4: once the primary stream has ended, a follow-up completion is
    requested exactly when the tool output holds at least one stored
    item and a tool name was recorded; when it is not wanted, and so in
    particular with an empty tool output, nothing is requested and
    nothing else happens, whatever was dispatched.  The follow-up request
    offers no tools.  When the follow-up is requested, its non-empty text
    deltas are yielded in order, after the request, and their text is
    added to the collected text, up to the end of the stream or its
    interruption; the transcript and the tool output are left alone.  A
    primary stream that carries only text is treated in the same way:
    the same deltas are yielded and the same text is collected. *)
Theorem followup_gate (s : state) :
  let fq := followup_request (history s) in
  (followup_wanted s = true <->
     tool_output_chunks s <> [] /\ exists n, tool_name s = Some n /\ n <> "") /\
  opened_of (trace (snd (phase2' s))) =
    opened_of (trace s) ++ (if followup_wanted s then [fq] else []) /\
  (tool_output_chunks s = [] -> phase2' s = (Ret tt, s)) /\
  (followup_wanted s = false -> phase2' s = (Ret tt, s)) /\
  (followup_wanted s = true ->
     phase2' s = phase1' (map text_only (client fq)) (log (Opened fq) s)) /\
  tools fq = [] /\
  (followup_wanted s = true ->
   exists s',
     phase2' s = (stream_end (client fq), s') /\
     trace s' =
       trace s ++ Opened fq :: map (fun d => Yielded (PStr d)) (deltas (client fq)) /\
     collected s' = (collected s ++ stream_text (client fq))%string /\
     history s' = history s /\
     tool_output_chunks s' = tool_output_chunks s) /\
  (forall stream s0,
     forallb quiet stream = true ->
     exists s',
       phase1' stream s0 = (stream_end stream, s') /\
       trace s' = trace s0 ++ map (fun d => Yielded (PStr d)) (deltas stream) /\
       collected s' = (collected s0 ++ stream_text stream)%string /\
       history s' = history s0 /\
       tool_output_chunks s' = tool_output_chunks s0).
Proof.
  intros fq. subst fq.
  assert (Hrun : followup_wanted s = true ->
            phase2' s =
            (stream_end (client (followup_request (history s))),
             after_text (client (followup_request (history s)))
                        (log (Opened (followup_request (history s))) s))).
  { intros H. rewrite (phase2_eq json_loads json_dumps sum_text clock), H.
    rewrite quiet_stream_run by apply quiet_text_only.
    unfold stream_end.
    now rewrite has_interrupt_text_only, after_text_text_only. }
  split; [|split; [|split; [|split; [|split; [|split; [reflexivity|split]]]]]].
  - unfold followup_wanted.
    destruct (tool_output_chunks s) as [|x l].
    + split; [discriminate | intros [H _]; now elim H].
    + destruct (tool_name s) as [n|].
      * destruct (n =? "")%string eqn:E; simpl.
        -- apply String.eqb_eq in E. subst n.
           split; [discriminate | intros [_ (n & Hn & Hne)]].
           injection Hn as <-. now elim Hne.
        -- apply String.eqb_neq in E.
           split; [intros _; split; [discriminate | now exists n] | reflexivity].
      * split; [discriminate | intros [_ (n & Hn & _)]; discriminate].
  - destruct (followup_wanted s) eqn:E.
    + rewrite (Hrun eq_refl). simpl.
      rewrite !opened_of_app. simpl.
      rewrite texts_as_yields, opened_of_yielded. now rewrite app_nil_r.
    + rewrite (phase2_eq json_loads json_dumps sum_text clock), E. simpl.
      now rewrite app_nil_r.
  - intros H. rewrite (phase2_eq json_loads json_dumps sum_text clock).
    unfold followup_wanted. now rewrite H.
  - intros H. now rewrite (phase2_eq json_loads json_dumps sum_text clock), H.
  - intros H. now rewrite (phase2_eq json_loads json_dumps sum_text clock), H.
  - intros H. eexists. split; [exact (Hrun H)|]. simpl.
    rewrite <- app_assoc. repeat split; reflexivity.
  - intros stream s0 Hq. eexists. split; [exact (quiet_stream_run stream s0 Hq)|].
    simpl. repeat split; reflexivity.
Qed.

(** ** The transcript after one tool call *)

Lemma on_tool_call_completes (tc : tool_call) (s : state) :
  fst (on_tool_call' tc s) = Ret tt ->
  completes (complete_one json_loads (partial_args s) tc) s (snd (on_tool_call' tc s)).
Proof.
  rewrite (on_tool_call_eq json_loads json_dumps sum_text clock). cbv zeta.
  unfold complete_one.
  assert (Hq : forall p, completes (p, 0) s (with_buffer p (heard clock tc s))).
  { intros p. exists []. simpl. rewrite app_nil_r. repeat split; auto. }
  destruct (fn_arguments tc) as [piece|]; [|intros _; apply (Hq (partial_args s))].
  destruct (piece =? "")%string; [intros _; apply (Hq (partial_args s))|].
  destruct (json_loads (partial_args s ++ piece)) as [args| |f];
    [|intros _; apply Hq|discriminate].
  rewrite (dispatch_eq json_dumps sum_text). cbv zeta.
  destruct (bind_kwargs args) as [[a b]|]; [|discriminate].
  destruct (snd (fun_2' a b)); [discriminate|]. intros _.
  eexists [Dispatched _ _ _ _]. simpl.
  rewrite <- app_assoc. repeat split; reflexivity.
Qed.

Lemma completes_trans (b : string) (n : nat) (k : string * nat) (s s1 s2 : state) :
  completes (b, n) s s1 -> partial_args s1 = b -> completes k s1 s2 ->
  completes (fst k, n + snd k) s s2.
Proof.
  intros (ds & Hh & Hl & _) _ (es & Hh' & Hl' & Hp').
  exists (ds ++ es). simpl in *.
  rewrite Hh', Hh, tool_turns_app, length_app, Hl, Hl', <- app_assoc.
  repeat split; auto.
Qed.

Lemma tool_calls_complete (tcs : list tool_call) (s : state) :
  fst (for_each on_tool_call' tcs s) = Ret tt ->
  completes (complete_calls json_loads (partial_args s) tcs) s
            (snd (for_each on_tool_call' tcs s)).
Proof.
  revert s. induction tcs as [|tc tcs IH]; intros s; simpl.
  - intros _. exists []. simpl. rewrite app_nil_r. repeat split; auto.
  - unfold bind. pose proof (on_tool_call_completes tc s) as H.
    destruct (on_tool_call' tc s) as [[[]|e] s1]; simpl in *; [|discriminate].
    intros E. specialize (H eq_refl). specialize (IH s1 E).
    destruct (complete_one json_loads (partial_args s) tc) as [b n].
    assert (Hb : partial_args s1 = b) by (destruct H as (? & _ & _ & Hb); exact Hb).
    rewrite Hb in IH.
    destruct (complete_calls json_loads b tcs) as [b' m] eqn:Ek.
    apply (completes_trans (k := (b', m)) H Hb IH).
Qed.

Lemma phase1_completes (stream : list event) (s : state) :
  fst (phase1' stream s) = Ret tt ->
  completes (completions json_loads (partial_args s) stream) s (snd (phase1' stream s)).
Proof.
  unfold phase1. revert s.
  induction stream as [|[c|] rest IH]; intros s; simpl.
  - intros _. exists []. simpl. rewrite app_nil_r. repeat split; auto.
  - unfold bind, on_chunk.
    assert (Hc : fst (on_chunk' c s) = Ret tt ->
                 completes match choices c with
                           | ch :: _ => complete_calls json_loads (partial_args s) (tool_calls ch)
                           | [] => (partial_args s, 0)
                           end s (snd (on_chunk' c s))).
    { unfold on_chunk. destruct (choices c) as [|ch _].
      - intros _. exists []. simpl. rewrite app_nil_r. repeat split; auto.
      - unfold bind.
        assert (Ht : exists s1, on_text (content ch) s = (Ret tt, s1) /\
                                history s1 = history s /\
                                partial_args s1 = partial_args s).
        { unfold on_text. destruct (content ch) as [d|];
            [destruct (d =? "")%string|];
            (eexists; split; [reflexivity|]); split; reflexivity. }
        destruct Ht as (s1 & -> & Hh & Hp). intros E.
        pose proof (tool_calls_complete (tool_calls ch) s1 E) as (ds & H1 & H2 & H3).
        rewrite Hp in *. rewrite Hh in H1. now exists ds. }
    fold (on_chunk' c) in *.
    destruct (on_chunk' c s) as [[[]|e] s1]; simpl in *; [|discriminate].
    intros E. specialize (Hc eq_refl). specialize (IH s1 E).
    destruct (match choices c with
              | ch :: _ => complete_calls json_loads (partial_args s) (tool_calls ch)
              | [] => (partial_args s, 0)
              end) as [b n].
    assert (Hb : partial_args s1 = b) by (destruct Hc as (? & _ & _ & Hb); exact Hb).
    rewrite Hb in IH.
    destruct (completions json_loads b rest) as [b' m] eqn:Ek.
    apply (completes_trans (k := (b', m)) Hc Hb IH).
  - discriminate.
Qed.

(** A call that returns normally, with no stream interrupted, leaves the
    question, the turns of as many completed dispatches as the primary
    stream triggers, and the closing text. *)
Lemma returned_call_history (ask : string) (s s' : state) :
  (forall r, has_interrupt (client r) = false) ->
  ask_question' ask s = (Ret tt, s') ->
  exists ds,
    length ds =
      dispatches_triggered json_loads (client (primary_request (history s ++ [User ask]))) /\
    history s' =
      history s ++ User ask :: tool_turns ds ++ [AssistantText (collected s')].
Proof.
  intros Hquiet.
  rewrite (ask_question_eq json_loads json_dumps sum_text clock client), ask_body_eq.
  set (q := primary_request (history s ++ [User ask])).
  pose proof (phase1_completes (client q) (started ask s)) as Hc.
  destruct (phase1_advances json_loads json_dumps sum_text clock
              (client q) (started ask s)) as (_ & _ & Hi).
  destruct (phase1' (client q) (started ask s)) as [[[]|e] s1]; simpl in *.
  - destruct (Hc eq_refl) as (ds & Hh & Hl & _).
    assert (Hshape :
              history s1 ++ [AssistantText (collected s')] =
              history s ++ User ask :: tool_turns ds ++ [AssistantText (collected s')]).
    { rewrite Hh. cbn [started history]. rewrite <- !app_assoc. reflexivity. }
    destruct (followup_wanted s1).
    + unfold stream_end. rewrite Hquiet.
      intros E. injection E as <-. exists ds. split; [exact Hl|].
      simpl in *. exact Hshape.
    + intros E. injection E as <-. exists ds. split; [exact Hl|].
      simpl in *. exact Hshape.
  - destruct e; try discriminate.
    rewrite Hquiet in Hi. discriminate (Hi eq_refl).
Qed.

(** C2 as the code has it: take a question whose streams are not
    interrupted and whose primary stream triggers exactly one tool call,
    that is, the buffered arguments parse at exactly one fragment.  When
    the call returns normally, it has added exactly four turns to the
    transcript, in this order: the user turn, the tool-call turn, the
    tool-result turn with the same call id and name, and the closing
    text. *)
Theorem one_tool_call_transcript (ask : string) (s s' : state) :
  (forall r, has_interrupt (client r) = false) ->
  dispatches_triggered json_loads
    (client (primary_request (history s ++ [User ask]))) = 1 ->
  ask_question' ask s = (Ret tt, s') ->
  (exists id name args out,
     history s' =
       history s ++ [User ask; AssistantToolCall id name args;
                     ToolResult id name out; AssistantText (collected s')]) /\
  last_four_ok (history s').
Proof.
  intros Hquiet Hone E.
  destruct (@returned_call_history ask s s' Hquiet E) as (ds & Hl & Hh).
  rewrite Hone in Hl.
  destruct ds as [|d [|d' ds]]; try discriminate. simpl in Hh.
  split.
  - now exists (d_id d), (d_name d), (d_arguments d), (d_result d).
  - exists (history s), ask, (d_id d), (d_name d), (d_arguments d),
      (d_id d), (d_name d), (d_result d), (collected s').
    split; [exact Hh | reflexivity].
Qed.


(** ** An answer without tool calls *)

(** X3: when the primary stream carries no tool-call fragment, the call
    returns normally; it yields the non-empty text deltas in order (and the
    marker after them when the stream was interrupted), requests no
    follow-up, reads no clock, and adds exactly two turns to the
    transcript: the question and the text received. *)
Theorem text_only_answer (ask : string) (s : state) :
  let q := primary_request (history s ++ [User ask]) in
  forallb quiet (client q) = true ->
  exists s',
    ask_question' ask s = (Ret tt, s') /\
    history s' = history s ++ [User ask; AssistantText (stream_text (client q))] /\
    trace s' =
      trace s ++ [Appended (User ask); Opened q] ++
      map (fun d => Yielded (PStr d)) (deltas (client q)) ++
      (if has_interrupt (client q) then [Yielded (PStr interrupted_marker)] else []) ++
      [Appended (AssistantText (stream_text (client q)))] /\
    ticks s' = ticks s.
Proof.
  intros q Hq.
  rewrite (ask_question_eq json_loads json_dumps sum_text clock client).
  fold q. rewrite ask_body_eq, quiet_stream_run by exact Hq.
  unfold stream_end. destruct (has_interrupt (client q)).
  - eexists. split; [reflexivity|]. simpl.
    rewrite <- !app_assoc. simpl. repeat split; reflexivity.
  - change (followup_wanted (after_text (client q) (started ask s))) with false.
    cbv iota. eexists. split; [reflexivity|]. simpl.
    rewrite <- !app_assoc. simpl. repeat split; reflexivity.
Qed.

(** ** The requests of a call *)

(** X4: a call sends one or two requests.  The first is the primary
    request, whose messages are the transcript with the new user turn.
    The second, when there is one, is the follow-up: its messages are the
    transcript as it stands after the tool turns of this call, that is
    everything the call leaves in the transcript except the closing
    text. *)
Theorem requests_of_an_ask (ask : string) (s : state) :
  exists r s' t mid,
    ask_question' ask s = (r, s') /\
    trace s' = trace s ++ t /\
    history s' = history s ++ User ask :: mid ++ [AssistantText (collected s')] /\
    (opened_of t = [primary_request (history s ++ [User ask])] \/
     opened_of t = [primary_request (history s ++ [User ask]);
                    followup_request (history s ++ User ask :: mid)]).
Proof.
  rewrite (ask_question_eq json_loads json_dumps sum_text clock client).
  set (q := primary_request (history s ++ [User ask])).
  rewrite ask_body_eq.
  destruct (phase1_advances json_loads json_dumps sum_text clock (client q) (started ask s))
    as ((t1 & Ht & Hh & Ho & _) & _ & _).
  destruct (phase1' (client q) (started ask s)) as [[[]|e] s1]; simpl in Ht, Hh.
  - destruct (followup_wanted s1).
    + unfold stream_end.
      destruct (has_interrupt (client (followup_request (history s1))));
        (eexists _, _, _, (appends_of t1); split; [reflexivity|]); simpl;
        rewrite Ht, Hh, <- !app_assoc; simpl;
        (split; [reflexivity|]); (split; [reflexivity|]); right;
        read_opened; rewrite Ho; reflexivity.
    + eexists _, _, _, (appends_of t1). split; [reflexivity|]. simpl.
      rewrite Ht, Hh, <- !app_assoc. simpl.
      split; [reflexivity|]. split; [reflexivity|]. left.
      read_opened. rewrite Ho. reflexivity.
  - destruct e;
      (eexists _, _, _, (appends_of t1); split; [reflexivity|]); simpl;
      rewrite Ht, Hh, <- !app_assoc; simpl;
      (split; [reflexivity|]); (split; [reflexivity|]); left;
      read_opened; rewrite Ho; reflexivity.
Qed.


(** ** When the follow-up is requested *)

Lemma fun_2_stores (a b : pyval) : kept (fst (fun_2' a b)) <> [].
Proof. unfold fun_2. destruct (sum_text a b); discriminate. Qed.

Lemma on_tool_call_gathers (tc : tool_call) (s : state) :
  fst (on_tool_call' tc s) = Ret tt -> gathers s (snd (on_tool_call' tc s)).
Proof.
  rewrite (on_tool_call_eq json_loads json_dumps sum_text clock). cbv zeta.
  assert (Hn : named (heard clock tc s))
    by (eexists; split; [reflexivity | apply placeholder_or_name]).
  assert (Hq : forall p, gathers s (with_buffer p (heard clock tc s))).
  { intros p. exists []. simpl. rewrite app_nil_r. repeat split; auto. }
  destruct (fn_arguments tc) as [piece|]; [|intros _; apply (Hq (partial_args s))].
  destruct (piece =? "")%string; [intros _; apply (Hq (partial_args s))|].
  destruct (json_loads (partial_args s ++ piece)) as [args| |f];
    [|intros _; apply Hq|discriminate].
  rewrite (dispatch_eq json_dumps sum_text). cbv zeta.
  destruct (bind_kwargs args) as [[a b]|]; [|discriminate].
  destruct (snd (fun_2' a b)); [discriminate|]. intros _.
  exists (kept (fst (fun_2' a b))). simpl.
  split; [reflexivity|]. split; [auto|]. right.
  split; [|split; [apply fun_2_stores | exact Hn]].
  rewrite !count_calls_app. unfold count_calls. simpl. lia.
Qed.

Lemma tool_calls_gather (tcs : list tool_call) (s : state) :
  fst (for_each on_tool_call' tcs s) = Ret tt ->
  gathers s (snd (for_each on_tool_call' tcs s)).
Proof.
  revert s. induction tcs as [|tc tcs IH]; intros s; simpl.
  - intros _. apply gathers_refl.
  - unfold bind. pose proof (on_tool_call_gathers tc s) as H.
    destruct (on_tool_call' tc s) as [[[]|e] s1]; simpl in *; [|discriminate].
    intros E. apply gathers_trans with (s1 := s1); auto.
Qed.

Lemma on_chunk_gathers (c : chunk) (s : state) :
  fst (on_chunk' c s) = Ret tt -> gathers s (snd (on_chunk' c s)).
Proof.
  unfold on_chunk. destruct (choices c) as [|ch _]; [intros _; apply gathers_refl|].
  unfold bind.
  assert (Ht : exists s1, on_text (content ch) s = (Ret tt, s1) /\ gathers s s1).
  { unfold on_text. destruct (content ch) as [d|];
      [destruct (d =? "")%string|];
      (eexists; split; [reflexivity|]); try apply gathers_refl.
    exists []. simpl. rewrite app_nil_r. repeat split; auto. }
  destruct Ht as (s1 & -> & G). intros E.
  apply gathers_trans with (s1 := s1); [exact G | now apply tool_calls_gather].
Qed.

Lemma phase1_gathers (stream : list event) (s : state) :
  fst (phase1' stream s) = Ret tt -> gathers s (snd (phase1' stream s)).
Proof.
  unfold phase1. revert s.
  induction stream as [|[c|] rest IH]; intros s; simpl.
  - intros _. apply gathers_refl.
  - unfold bind. pose proof (on_chunk_gathers c s) as H.
    destruct (on_chunk' c s) as [[[]|e] s1]; simpl in *; [|discriminate].
    intros E. apply gathers_trans with (s1 := s1); auto.
  - discriminate.
Qed.

(** X5: in a call that returns and whose primary stream was not
    interrupted, the follow-up is requested exactly when at least one tool
    call was dispatched: [fun_2] always stores something, so every
    completed dispatch leaves a tool output to report. *)
Theorem followup_iff_dispatched (ask : string) (s s' : state) :
  ask_question' ask s = (Ret tt, s') ->
  has_interrupt (client (primary_request (history s ++ [User ask]))) = false ->
  exists t,
    trace s' = trace s ++ t /\
    length (opened_of t) =
      if (count_calls (history s) <? count_calls (history s'))%nat then 2 else 1.
Proof.
  intros E Hi.
  rewrite (ask_question_eq json_loads json_dumps sum_text clock client),
    ask_body_eq in E.
  set (q := primary_request (history s ++ [User ask])) in *.
  destruct (phase1_advances json_loads json_dumps sum_text clock (client q) (started ask s))
    as ((t1 & Ht & Hh & Ho & _) & _ & Hki).
  pose proof (phase1_gathers (client q) (started ask s)) as G.
  destruct (phase1' (client q) (started ask s)) as [[[]|e] s1]; simpl in Ht, Hh, Hki, G.
  - destruct (G eq_refl) as (extra & Hx & _ & Hcases). clear G.
    assert (Hc0 : count_calls (history s ++ [User ask]) = count_calls (history s))
      by (rewrite count_calls_app; unfold count_calls at 2; simpl; lia).
    destruct Hcases as [[Hc ->]|(Hc & Hne & Hn)];
      change (history (started ask s)) with (history s ++ [User ask]) in Hc;
      rewrite Hc0 in Hc.
    + assert (Hw : followup_wanted s1 = false)
        by (unfold followup_wanted; now rewrite Hx).
      rewrite Hw in E. injection E as <-. simpl.
      exists ([Appended (User ask); Opened q] ++ t1 ++
              [Appended (AssistantText (collected s1))]).
      rewrite Ht, <- !app_assoc. split; [reflexivity|].
      read_opened. rewrite Ho, count_calls_app, Hc.
      unfold count_calls at 2; simpl.
      rewrite Nat.add_0_r, Nat.ltb_irrefl. reflexivity.
    + assert (Hw : followup_wanted s1 = true)
        by (apply wanted_when_gathered; [exact Hn | now rewrite Hx]).
      rewrite Hw in E. unfold stream_end in E.
      assert (Hlt : forall c,
                 (count_calls (history s) <?
                  count_calls (history s1 ++ [AssistantText c]))%nat = true).
      { intros c. apply Nat.ltb_lt. rewrite count_calls_app. lia. }
      destruct (has_interrupt (client (followup_request (history s1))));
        injection E as <-; simpl; rewrite Hlt;
        eexists; rewrite Ht, <- !app_assoc;
        (split; [reflexivity|]); read_opened; rewrite Ho; reflexivity.
  - destruct e; try discriminate E. now rewrite Hki in Hi.
Qed.


(** ** A tool call that fails *)


(** ** What the example tool shows and stores *)



(** ** A tool call that never completes *)

Lemma only_text_refl (s : state) : only_text [] "" s s.
Proof.
  unfold only_text. simpl. now rewrite app_nil_r, string_app_nil_r.
Qed.

Lemma only_text_trans (x y : list string) (u v : string) (s s1 s2 : state) :
  only_text x u s s1 -> only_text y v s1 s2 -> only_text (x ++ y) (u ++ v) s s2.
Proof.
  intros (H1 & H2 & H3 & H4) (K1 & K2 & K3 & K4). unfold only_text.
  rewrite K1, K2, K3, K4, H1, H2, H3, H4, map_app, app_assoc, string_app_assoc.
  auto.
Qed.

Lemma on_tool_call_buffers (tc : tool_call) (s : state) (b' : string) :
  feed json_loads (Some (partial_args s)) tc = Some b' ->
  exists s', on_tool_call' tc s = (Ret tt, s') /\
    partial_args s' = b' /\ only_text [] "" s s'.
Proof.
  rewrite (on_tool_call_eq json_loads json_dumps sum_text clock). cbv zeta.
  unfold feed.
  assert (Hq : forall p, only_text [] "" s (with_buffer p (heard clock tc s))).
  { intros p. unfold only_text. simpl. now rewrite app_nil_r, string_app_nil_r. }
  destruct (fn_arguments tc) as [piece|].
  - destruct (piece =? "")%string.
    + intros E. injection E as <-. eexists. split; [reflexivity|].
      split; [reflexivity | apply (Hq (partial_args s))].
    + destruct (json_loads (partial_args s ++ piece)); [discriminate| |discriminate].
      intros E. injection E as <-. eexists. split; [reflexivity|].
      split; [reflexivity | apply Hq].
  - intros E. injection E as <-. eexists. split; [reflexivity|].
    split; [reflexivity | apply (Hq (partial_args s))].
Qed.

Lemma feed_none (tcs : list tool_call) : fold_left (feed json_loads) tcs None = None.
Proof. induction tcs; simpl; auto. Qed.

Lemma tool_calls_buffer (tcs : list tool_call) (s : state) (b' : string) :
  fold_left (feed json_loads) tcs (Some (partial_args s)) = Some b' ->
  exists s', for_each on_tool_call' tcs s = (Ret tt, s') /\
    partial_args s' = b' /\ only_text [] "" s s'.
Proof.
  revert s. induction tcs as [|tc tcs IH]; intros s; cbn [fold_left for_each].
  - intros E. injection E as <-. eexists. split; [reflexivity|].
    split; [reflexivity | apply only_text_refl].
  - destruct (feed json_loads (Some (partial_args s)) tc) as [b1|] eqn:E1;
      [|now rewrite feed_none].
    destruct (on_tool_call_buffers tc s E1) as (s1 & R1 & <- & T1).
    intros E. destruct (IH s1 E) as (s2 & R2 & P2 & T2).
    exists s2. unfold bind. rewrite R1. split; [exact R2|]. split; [exact P2|].
    apply (only_text_trans T1 T2).
Qed.

Lemma feed_event_none (stream : list event) :
  fold_left (feed_event json_loads) stream None = None.
Proof.
  induction stream as [|[c|] rest IH]; simpl; auto.
  destruct (choices c); [exact IH | now rewrite feed_none].
Qed.

Lemma phase1_buffers (stream : list event) (s : state) (b' : string) :
  fold_left (feed_event json_loads) stream (Some (partial_args s)) = Some b' ->
  exists s', phase1' stream s = (stream_end stream, s') /\
    only_text (deltas stream) (stream_text stream) s s'.
Proof.
  unfold phase1, stream_end. revert s.
  induction stream as [|[c|] rest IH]; intros s;
    cbn [fold_left for_stream feed_event has_interrupt deltas stream_text].
  - intros _. eexists. split; [reflexivity | apply only_text_refl].
  - unfold on_chunk, chunk_text, bind.
    destruct (choices c) as [|ch chs].
    + intros E. destruct (IH s E) as (s2 & R2 & T2).
      exists s2. split; [exact R2 | exact T2].
    + destruct (fold_left (feed json_loads) (tool_calls ch) (Some (partial_args s)))
        as [b1|] eqn:E1; [|now rewrite feed_event_none].
      assert (Ht : exists s0, on_text (content ch) s = (Ret tt, s0) /\
                     partial_args s0 = partial_args s /\
                     only_text
                       (if ((match content ch with Some d => d | None => "" end) =? "")%string
                        then []
                        else [match content ch with Some d => d | None => "" end])
                       (match content ch with Some d => d | None => "" end) s s0).
      { unfold on_text. destruct (content ch) as [d|]; simpl.
        - destruct (d =? "")%string eqn:E.
          + apply String.eqb_eq in E. subst d.
            eexists. split; [reflexivity|]. split; [reflexivity | apply only_text_refl].
          + eexists. split; [reflexivity|]. split; [reflexivity|].
            unfold only_text. simpl. auto.
        - eexists. split; [reflexivity|]. split; [reflexivity | apply only_text_refl]. }
      destruct Ht as (s0 & R0 & P0 & T0). rewrite R0. rewrite <- P0 in E1.
      destruct (tool_calls_buffer (tool_calls ch) s0 E1) as (s1 & R1 & <- & T1).
      rewrite R1. intros E. destruct (IH s1 E) as (s2 & R2 & T2).
      exists s2. split; [exact R2|].
      pose proof (only_text_trans (only_text_trans T0 T1) T2) as T.
      now rewrite app_nil_r, string_app_nil_r in T.
  - intros _. eexists. split; [reflexivity | apply only_text_refl].
Qed.

(** X10: a tool call whose arguments never parse is dropped without a
    trace.  When every parse attempt of the primary loop raises
    [JSONDecodeError] (fragments missing, the stream ending or interrupted
    while the call is still buffering), the call returns normally, yields
    only the text deltas, requests no follow-up, and the transcript gains
    the question and the text received, with no tool turn and no sign of
    the unfinished call.  An attempt on which the decoder raises another
    error is not such a stream: [still_buffering] is [None] on it. *)
Theorem unfinished_tool_call_is_dropped (ask : string) (s : state) (b : string) :
  let q := primary_request (history s ++ [User ask]) in
  still_buffering json_loads (client q) = Some b ->
  exists s' t,
    ask_question' ask s = (Ret tt, s') /\
    history s' = history s ++ [User ask; AssistantText (stream_text (client q))] /\
    trace s' = trace s ++ t /\
    opened_of t = [q] /\
    yields_of t =
      map PStr (deltas (client q)) ++
      (if has_interrupt (client q) then [PStr interrupted_marker] else []).
Proof.
  intros q Hb.
  rewrite (ask_question_eq json_loads json_dumps sum_text clock client).
  fold q. rewrite ask_body_eq.
  destruct (phase1_buffers (client q) (started ask s) Hb)
    as (s1 & R1 & Hh & Hc & Ht & Hcol).
  rewrite R1. unfold stream_end.
  assert (Hw : followup_wanted s1 = false)
    by (unfold followup_wanted; now rewrite Hc).
  simpl in Hh, Ht, Hcol.
  destruct (has_interrupt (client q)).
  - eexists _, _. split; [reflexivity|]. simpl.
    rewrite Hh, Ht, Hcol, <- !app_assoc. simpl.
    split; [reflexivity|]. split; [reflexivity|].
    split; [read_opened; reflexivity | read_yields; reflexivity].
  - rewrite Hw. eexists _, _. split; [reflexivity|]. simpl.
    rewrite Hh, Ht, Hcol, <- !app_assoc. simpl.
    split; [reflexivity|]. split; [reflexivity|].
    split; [read_opened; reflexivity | read_yields; now rewrite ?app_nil_r].
Qed.

(** ** Ids made from the clock *)


(** The transcript after a call, whatever its outcome. *)
Lemma ask_history_shape (ask : string) (s : state) :
  exists mid c,
    history (snd (ask_question' ask s)) =
      history s ++ User ask :: mid ++ [AssistantText c] /\
    Forall is_tool_turn mid.
Proof.
  rewrite (ask_question_eq json_loads json_dumps sum_text clock client).
  destruct (ask_body_advances json_loads json_dumps sum_text clock client
              (client (primary_request (history s ++ [User ask]))) (started ask s))
    as (reqs & (tb & _ & Hh & _ & Hf & _) & _ & _).
  destruct (ask_body' _ (started ask s)) as [[[]|e] sb]; [|destruct e];
    simpl in *; exists (appends_of tb); eexists;
    rewrite Hh, <- !app_assoc; (split; [reflexivity | exact Hf]).
Qed.

End MoreProperties.

(** ** The interactive loop *)

Section SessionProperties.

Variable json_loads : string -> decoded.
Variable json_dumps : bool -> pyval -> string.
Variable sum_text : pyval -> pyval -> option string.
Variable clock : nat -> Z.
Variable client : request -> list event.
Variable strip : string -> string.
Variable lower : string -> string.

Local Notation ask_question' :=
  (ask_question json_loads json_dumps sum_text clock client).
Local Notation main' :=
  (main json_loads json_dumps sum_text clock client strip lower).
Local Notation questions' := (questions strip lower).

(** X8: a line that reads [exit] or [quit] once stripped and lowered ends
    the session at once: blank lines before it are skipped, nothing is
    sent or appended, and the lines after it are never read. *)
Theorem exit_ends_session (blanks rest : list string) (line : string) (s : state) :
  Forall (fun l => strip l = "") blanks ->
  strip line <> "" ->
  is_exit lower (strip line) = true ->
  main' (blanks ++ line :: rest) s = (Goodbye, s).
Proof.
  intros Hb Hne He. induction Hb as [|l blanks Hl _ IH]; simpl.
  - apply String.eqb_neq in Hne. now rewrite Hne, He.
  - now rewrite Hl.
Qed.

(** X9: over a session that ends with an exit line or with the end of
    the input, the transcript only grows, and it gains one user turn per
    question asked, in order, and one closing assistant text per question
    asked.  The questions asked are the stripped non-empty lines before
    the first exit line.  A session that an exception ends is left out. *)
Theorem session_transcript (inputs : list string) (s s' : state) (e : session_end) :
  main' inputs s = (e, s') ->
  e = Goodbye \/ e = EndOfInput ->
  exists more,
    history s' = history s ++ more /\
    user_texts more = questions' inputs /\
    closing_count more = length (questions' inputs).
Proof.
  intros E He. revert s E. induction inputs as [|line rest IH]; intros s; simpl.
  - intros E. injection E as _ <-. exists [].
    rewrite app_nil_r. repeat split; reflexivity.
  - destruct (strip line =? "")%string; [apply IH|].
    destruct (is_exit lower (strip line)).
    + intros E. injection E as _ <-. exists [].
      rewrite app_nil_r. repeat split; reflexivity.
    + destruct (ask_history_shape json_loads json_dumps sum_text clock client
                  (strip line) s) as (mid & c & Hh & Hf).
      destruct (tool_turns_quiet Hf) as [Hu Hc].
      destruct (ask_question' (strip line) s) as [[[]|x] s1]; simpl in Hh.
      * intros E. destruct (IH _ E) as (more & Hm & Hu' & Hc').
        exists ((User (strip line) :: mid ++ [AssistantText c]) ++ more).
        rewrite Hm, Hh, <- !app_assoc.
        split; [reflexivity|].
        rewrite user_texts_app, closing_count_app, Hu', Hc'.
        change (User (strip line) :: mid ++ [AssistantText c])
          with ([User (strip line)] ++ mid ++ [AssistantText c]).
        rewrite !user_texts_app, !closing_count_app, Hu, Hc.
        split; reflexivity.
      * intros E. injection E as <- _. destruct He; discriminate.
Qed.

End SessionProperties.

(** ** The further properties on concrete runs *)

(** The follow-up on concrete states: with an empty tool output nothing
    is requested; with a stored value the follow-up is requested, its
    non-empty deltas are yielded in order and added to the text collected
    so far. *)
Lemma followup_gate_witness :
  phase2 (Ref.script [] [Ref.text "done"])
         (State [User "q"] [] 0 "" "" (Some "fun_2") []) =
  (Ret tt, State [User "q"] [] 0 "" "" (Some "fun_2") []) /\
  exists s',
    phase2 (Ref.script [] [Ref.text "It is "; Ref.text ""; Ref.text "3."])
           (State [User "q"] [] 0 "Sum: " "" (Some "fun_2") [PStr "kept"]) =
    (Ret tt, s') /\
    trace s' =
      [Opened (followup_request [User "q"]); Yielded (PStr "It is "); Yielded (PStr "3.")] /\
    collected s' = "Sum: It is 3." /\
    history s' = [User "q"].
Proof.
  split.
  - apply (proj1 (proj2 (proj2
             (followup_gate Ref.json_loads Ref.json_dumps Ref.sum_text Ref.clock
                (Ref.script [] [Ref.text "done"])
                (State [User "q"] [] 0 "" "" (Some "fun_2") []))))).
    reflexivity.
  - destruct (proj1 (proj2 (proj2 (proj2 (proj2 (proj2 (proj2
               (followup_gate Ref.json_loads Ref.json_dumps Ref.sum_text Ref.clock
                  (Ref.script [] [Ref.text "It is "; Ref.text ""; Ref.text "3."])
                  (State [User "q"] [] 0 "Sum: " "" (Some "fun_2") [PStr "kept"]))))))))
               eq_refl)
      as (s' & E & Ht & Hc & Hh & _).
    exists s'. split; [exact E|]. split; [exact Ht|]. split; [exact Hc | exact Hh].
Defined.

Lemma one_call_run :
  ask_question Ref.json_loads Ref.json_dumps Ref.sum_text Ref.clock
    (Ref.script Ref.one_call [Ref.text "done"]) "q" Ref.empty_state =
  (Ret tt, Ref.one_call_final).
Proof. vm_compute. reflexivity. Qed.

Lemma one_tool_call_witness :
  dispatches_triggered Ref.json_loads Ref.one_call = 1 /\
  exists out,
    history Ref.one_call_final =
      [ User "q";
        AssistantToolCall "call_A" "fun_2" (Ref.json_dumps true Ref.args_1_2);
        ToolResult "call_A" "fun_2" out;
        AssistantText "hidone" ].
Proof.
  split; [reflexivity|].
  assert (Hquiet : forall r,
            has_interrupt (Ref.script Ref.one_call [Ref.text "done"] r) = false).
  { intros r. unfold Ref.script. destruct (tools r); reflexivity. }
  destruct (@one_tool_call_transcript Ref.json_loads Ref.json_dumps Ref.sum_text
              Ref.clock (Ref.script Ref.one_call [Ref.text "done"]) "q"
              Ref.empty_state Ref.one_call_final Hquiet eq_refl one_call_run)
    as [(id & name & args & out & Hh) _].
  exists out. rewrite Hh.
  assert (E : history Ref.one_call_final =
              [User "q"; AssistantToolCall id name args; ToolResult id name out;
               AssistantText (collected Ref.one_call_final)]) by exact Hh.
  vm_compute in E. injection E as <- <- <- _. reflexivity.
Defined.

Lemma text_only_answer_witness :
  exists s',
    ask_question Ref.json_loads Ref.json_dumps Ref.sum_text Ref.clock
      (Ref.script [Ref.text "Hel"; Ref.text "lo"] []) "q" Ref.empty_state =
    (Ret tt, s') /\
    history s' = [User "q"; AssistantText "Hello"].
Proof.
  pose proof (@text_only_answer Ref.json_loads Ref.json_dumps Ref.sum_text Ref.clock
                (Ref.script [Ref.text "Hel"; Ref.text "lo"] []) "q" Ref.empty_state
                eq_refl) as H.
  destruct H as (s' & E & Hh & _).
  exists s'. split; [exact E | exact Hh].
Defined.

Lemma followup_iff_dispatched_witness :
  exists t,
    trace Ref.two_calls_final = t /\ length (opened_of t) = 2.
Proof.
  destruct (@followup_iff_dispatched Ref.json_loads Ref.json_dumps Ref.sum_text Ref.clock
              (Ref.script Ref.two_calls [Ref.text "done"]) "q" Ref.empty_state
              Ref.two_calls_final two_calls_run eq_refl) as (t & Ht & Hl).
  exists t. split; [exact Ht | exact Hl].
Defined.


Lemma exit_ends_session_witness :
  main Ref.json_loads Ref.json_dumps Ref.sum_text Ref.clock (Ref.script [] [])
       Ref.strip Ref.lower ["  "; " QUIT "; "more"] Ref.empty_state =
  (Goodbye, Ref.empty_state).
Proof.
  assert (Hne : Ref.strip " QUIT " <> "") by discriminate.
  apply (@exit_ends_session Ref.json_loads Ref.json_dumps Ref.sum_text Ref.clock
           (Ref.script [] []) Ref.strip Ref.lower ["  "] ["more"] " QUIT "
           Ref.empty_state).
  - repeat constructor.
  - exact Hne.
  - reflexivity.
Defined.

Lemma session_run :
  main Ref.json_loads Ref.json_dumps Ref.sum_text Ref.clock
       (Ref.script [Ref.text "hi"] []) Ref.strip Ref.lower Ref.session_lines
       Ref.empty_state =
  (Goodbye, Ref.session_final).
Proof. vm_compute. reflexivity. Qed.

Lemma session_transcript_witness :
  exists more,
    history Ref.session_final = more /\
    user_texts more = ["what?"] /\
    closing_count more = 1.
Proof.
  destruct (@session_transcript Ref.json_loads Ref.json_dumps Ref.sum_text Ref.clock
              (Ref.script [Ref.text "hi"] []) Ref.strip Ref.lower Ref.session_lines
              Ref.empty_state Ref.session_final Goodbye session_run (or_introl eq_refl))
    as (more & Hm & Hu & Hc).
  exists more. split; [exact Hm|]. split; [exact Hu | exact Hc].
Defined.

Lemma unfinished_tool_call_witness :
  exists s',
    ask_question Ref.json_loads Ref.json_dumps Ref.sum_text Ref.clock
      (Ref.script [Ref.text "Hi"; single Ref.named_first] []) "q" Ref.empty_state =
    (Ret tt, s') /\
    history s' = [User "q"; AssistantText "Hi"].
Proof.
  pose proof (@unfinished_tool_call_is_dropped Ref.json_loads Ref.json_dumps
                Ref.sum_text Ref.clock
                (Ref.script [Ref.text "Hi"; single Ref.named_first] [])
                "q" Ref.empty_state Ref.piece_1 eq_refl) as H.
  destruct H as (s' & t & E & Hh & _).
  exists s'. split; [exact E | exact Hh].
Defined.

